(** * VerifyContext: the verification workflow store

    A shallow embedding of [src/context/VerifyContext.js], the React
    provider that holds the page of captures under review, the selection,
    the undo list and the batch approve / undo handlers.

    How the component is read here.

    - The twelve [useState] cells form the record [State].  A handler is a
      closure created by one render, so every state variable it reads is
      the value of that render: handlers take that snapshot [s] as an
      argument and never see their own writes.
    - A setter call does not change the snapshot; it queues a write.  The
      handlers therefore produce a trace of [event]s (setter calls and
      calls of the external API, in program order), and [run_state]
      applies the writes of a trace to a store, the last write of a cell
      winning, which is the state of the next render.
    - The API client [../api/treeTrackerApi] is external.  It is a
      [Backend]: a function of the requests made so far and of the
      current request that says whether the promise resolves and with
      which value.
    - [async] functions are run to completion; an exception or a rejected
      promise is the [Threw] result, [try]/[catch] is [try_catch].
    - JavaScript numbers that hold ids, indices and page numbers are
      integers ([Z]); the progress percentage is the double the code
      computes, a binary64 [float] with its rounded operations.
    - The entries of [captureImages] and [captureImagesUndo] are capture
      objects, as the API returns them: the tests [c !== undefined] and
      [c && ...] of the reductions always pass and are not written.
    - Calls of the logger are left out, and so are the two [useEffect]
      hooks, which only call the handlers modelled here. *)

From Stdlib Require Import String ZArith PrimFloat List Bool Lia.
From Stdlib Require Import Sorted Permutation.
Import ListNotations.
Local Open Scope Z_scope.

(** ** Data *)

(** A capture: the [id] the component works with and one field standing
    for the rest of the object. *)
Record CaptureImage : Type := mkCapture {
  id : Z;
  imageUrl : string
}.

(** Modelled from the spec: the Filter value object ([../models/Filter]),
    opaque to the component; only the two fields VerifyContext.js passes
    to its constructor are kept. *)
Record FilterModel : Type := mkFilter {
  approved : bool;
  active : bool
}.

(** The action object handed to [approve]; [tags = None] is an absent
    (falsy) [tags] property, [Some l] an array, which is truthy even
    when empty. *)
Record ApproveAction : Type := mkAction {
  isApproved : bool;
  morphology : string;
  age : string;
  captureApprovalTag : string;
  speciesId : Z;
  rejectionReason : string;
  tags : option (list string)
}.

(** The payload of [clickCapture]. *)
Record ClickPayload : Type := mkClick {
  captureId : Z;
  isShift : bool;
  isCmd : bool;
  isCtrl : bool
}.

(** The [useState] cells of [VerifyProvider]. *)
Record State : Type := mkState {
  captureImages : list CaptureImage;
  captureImagesUndo : list CaptureImage;
  captureImagesSelected : list Z;
  captureImageAnchor : option Z;
  isLoading : bool;
  isApproveAllProcessing : bool;
  approveAllComplete : float;
  pageSize : Z;
  currentPage : Z;
  filter : FilterModel;
  invalidateCaptureCount : bool;
  captureCount : option Z
}.

(** The initial values given to [useState]. *)
Definition initialState : State :=
  {| captureImages := [];
     captureImagesUndo := [];
     captureImagesSelected := [];
     captureImageAnchor := None;
     isLoading := false;
     isApproveAllProcessing := false;
     approveAllComplete := 0%float;
     pageSize := 24;
     currentPage := 0;
     filter := mkFilter false true;
     invalidateCaptureCount := true;
     captureCount := None |}.

(** ** The external API *)

Module api.

(** The requests the component sends through [api]. *)
Inductive request : Type :=
| approveCaptureImage (id : Z) (morphology age captureApprovalTag : string)
                      (speciesId : Z)
| rejectCaptureImage (id : Z) (rejectionReason : string)
| createCaptureTags (id : Z) (tags : list string)
| undoCaptureImage (id : Z)
| getCaptureImages (skip rowsPerPage : Z) (filter : FilterModel)
                   (abortController : option nat)
| getCaptureCount (filter : FilterModel).

(** An approve or a reject request: the one call every item of a batch
    approve makes. *)
Definition is_verdict (r : request) : bool :=
  match r with
  | approveCaptureImage _ _ _ _ _ | rejectCaptureImage _ _ => true
  | _ => false
  end.

(** An approve, reject or tag request. *)
Definition is_item_call (r : request) : bool :=
  match r with
  | approveCaptureImage _ _ _ _ _ | rejectCaptureImage _ _
  | createCaptureTags _ _ => true
  | _ => false
  end.

End api.

(** The server behind the API: given the requests already made, in order,
    and the current one, whether its promise resolves, and the value of a
    page or count request. *)
Record Backend : Type := mkBackend {
  resolves : list api.request -> api.request -> bool;
  page_of : list api.request -> api.request -> list CaptureImage;
  count_of : list api.request -> api.request -> Z
}.

(** ** Effects *)

Inductive exn : Type :=
| Error (message : string)
| TypeError
| Rejected (r : api.request).

Inductive result (A : Type) : Type :=
| Returned (a : A)
| Threw (e : exn).
Arguments Returned {A} a.
Arguments Threw {A} e.

(** What a handler does to the outside: a setter call or an API call with
    its outcome ([true]: the promise resolved). *)
Inductive event : Type :=
| SetCaptureImages (v : list CaptureImage)
| SetCaptureImagesUndo (v : list CaptureImage)
| SetCaptureImagesSelected (v : list Z)
| SetCaptureImageAnchor (v : option Z)
| SetIsLoading (v : bool)
| SetIsApproveAllProcessing (v : bool)
| SetApproveAllComplete (v : float)
| SetCurrentPage (v : Z)
| SetFilter (v : FilterModel)
| SetInvalidateCaptureCount (v : bool)
| SetCaptureCount (v : option Z)
| Call (r : api.request) (ok : bool).

(** The API calls of a trace, with and without their outcome. *)
Definition calls (t : list event) : list (api.request * bool) :=
  flat_map (fun e => match e with Call r ok => [(r, ok)] | _ => [] end) t.

Definition requests (t : list event) : list api.request :=
  map fst (calls t).

(** The write a setter event performs on the store. *)
Definition apply_event (st : State) (e : event) : State :=
  match e with
  | SetCaptureImages v =>
      mkState v (captureImagesUndo st) (captureImagesSelected st)
        (captureImageAnchor st) (isLoading st) (isApproveAllProcessing st)
        (approveAllComplete st) (pageSize st) (currentPage st) (filter st)
        (invalidateCaptureCount st) (captureCount st)
  | SetCaptureImagesUndo v =>
      mkState (captureImages st) v (captureImagesSelected st)
        (captureImageAnchor st) (isLoading st) (isApproveAllProcessing st)
        (approveAllComplete st) (pageSize st) (currentPage st) (filter st)
        (invalidateCaptureCount st) (captureCount st)
  | SetCaptureImagesSelected v =>
      mkState (captureImages st) (captureImagesUndo st) v
        (captureImageAnchor st) (isLoading st) (isApproveAllProcessing st)
        (approveAllComplete st) (pageSize st) (currentPage st) (filter st)
        (invalidateCaptureCount st) (captureCount st)
  | SetCaptureImageAnchor v =>
      mkState (captureImages st) (captureImagesUndo st)
        (captureImagesSelected st) v (isLoading st)
        (isApproveAllProcessing st) (approveAllComplete st) (pageSize st)
        (currentPage st) (filter st) (invalidateCaptureCount st)
        (captureCount st)
  | SetIsLoading v =>
      mkState (captureImages st) (captureImagesUndo st)
        (captureImagesSelected st) (captureImageAnchor st) v
        (isApproveAllProcessing st) (approveAllComplete st) (pageSize st)
        (currentPage st) (filter st) (invalidateCaptureCount st)
        (captureCount st)
  | SetIsApproveAllProcessing v =>
      mkState (captureImages st) (captureImagesUndo st)
        (captureImagesSelected st) (captureImageAnchor st) (isLoading st) v
        (approveAllComplete st) (pageSize st) (currentPage st) (filter st)
        (invalidateCaptureCount st) (captureCount st)
  | SetApproveAllComplete v =>
      mkState (captureImages st) (captureImagesUndo st)
        (captureImagesSelected st) (captureImageAnchor st) (isLoading st)
        (isApproveAllProcessing st) v (pageSize st) (currentPage st)
        (filter st) (invalidateCaptureCount st) (captureCount st)
  | SetCurrentPage v =>
      mkState (captureImages st) (captureImagesUndo st)
        (captureImagesSelected st) (captureImageAnchor st) (isLoading st)
        (isApproveAllProcessing st) (approveAllComplete st) (pageSize st) v
        (filter st) (invalidateCaptureCount st) (captureCount st)
  | SetFilter v =>
      mkState (captureImages st) (captureImagesUndo st)
        (captureImagesSelected st) (captureImageAnchor st) (isLoading st)
        (isApproveAllProcessing st) (approveAllComplete st) (pageSize st)
        (currentPage st) v (invalidateCaptureCount st) (captureCount st)
  | SetInvalidateCaptureCount v =>
      mkState (captureImages st) (captureImagesUndo st)
        (captureImagesSelected st) (captureImageAnchor st) (isLoading st)
        (isApproveAllProcessing st) (approveAllComplete st) (pageSize st)
        (currentPage st) (filter st) v (captureCount st)
  | SetCaptureCount v =>
      mkState (captureImages st) (captureImagesUndo st)
        (captureImagesSelected st) (captureImageAnchor st) (isLoading st)
        (isApproveAllProcessing st) (approveAllComplete st) (pageSize st)
        (currentPage st) (filter st) (invalidateCaptureCount st) v
  | Call _ _ => st
  end.

(** The store after the writes of a trace. *)
Definition run_state (st : State) (t : list event) : State :=
  fold_left apply_event t st.

(** A computation extends the trace it is started with and returns or
    throws. *)
Definition M (A : Type) : Type := list event -> result A * list event.

Definition ret {A : Type} (a : A) : M A := fun h => (Returned a, h).

Definition throw {A : Type} (e : exn) : M A := fun h => (Threw e, h).

Definition bind {A B : Type} (m : M A) (f : A -> M B) : M B :=
  fun h =>
    match m h with
    | (Returned a, h') => f a h'
    | (Threw e, h') => (Threw e, h')
    end.

Definition try_catch {A : Type} (m : M A) (handler : exn -> M A) : M A :=
  fun h =>
    match m h with
    | (Returned a, h') => (Returned a, h')
    | (Threw e, h') => handler e h'
    end.

Definition emit (e : event) : M unit := fun h => (Returned tt, h ++ [e]).

Declare Scope js_scope.
Delimit Scope js_scope with js.
Notation "x <- c1 ;; c2" := (bind c1 (fun x => c2))
  (at level 61, c1 at next level, right associativity) : js_scope.
Notation "c1 ;; c2" := (bind c1 (fun _ => c2))
  (at level 61, right associativity) : js_scope.
Local Open Scope js_scope.

(** [for (let i = start; i < start + n; i++) body(i)]. *)
Fixpoint for_range (n : nat) (i : nat) (body : nat -> M unit) : M unit :=
  match n with
  | O => ret tt
  | S n' => body i ;; for_range n' (S i) body
  end.

(** The setters. *)
Definition setCaptureImages v := emit (SetCaptureImages v).
Definition setCaptureImagesUndo v := emit (SetCaptureImagesUndo v).
Definition setCaptureImagesSelected v := emit (SetCaptureImagesSelected v).
Definition setCaptureImageAnchor v := emit (SetCaptureImageAnchor v).
Definition setIsLoading v := emit (SetIsLoading v).
Definition setIsApproveAllProcessing v := emit (SetIsApproveAllProcessing v).
Definition setApproveAllComplete v := emit (SetApproveAllComplete v).
Definition setCurrentPage v := emit (SetCurrentPage v).
Definition setFilter v := emit (SetFilter v).
Definition setInvalidateCaptureCount v := emit (SetInvalidateCaptureCount v).
Definition setCaptureCount v := emit (SetCaptureCount v).

(** The trace and the result of a handler started on an empty trace, and
    the state of the render that follows it when no other handler wrote
    in between. *)
Definition trace_of {A : Type} (m : M A) : list event := snd (m []).
Definition result_of {A : Type} (m : M A) : result A := fst (m []).
Definition next_state {A : Type} (s : State) (m : M A) : State :=
  run_state s (trace_of m).

(** ** JavaScript helpers *)

(** [v === n] for a number [n] and a value [v] that is a number or
    [undefined] ([None]). *)
Definition strict_eq (n : Z) (v : option Z) : bool :=
  match v with
  | Some m => n =? m
  | None => false
  end.

(** Truthiness of a value that is a number or [undefined]: [0] is falsy. *)
Definition truthy (v : option Z) : bool :=
  match v with
  | Some n => negb (n =? 0)
  | None => false
  end.

(** [l.slice(start, stop)], negative indices counting from the end. *)
Definition slice {A : Type} (l : list A) (start stop : Z) : list A :=
  let len := Z.of_nat (length l) in
  let k := if start <? 0 then Z.max (len + start) 0 else Z.min start len in
  let final := if stop <? 0 then Z.max (len + stop) 0 else Z.min stop len in
  firstn (Z.to_nat (final - k)) (skipn (Z.to_nat k) l).

(** [l.reduce((a, c, i) => f(a, c, i), a0)], the index starting at [i]. *)
Fixpoint reduce_indexed {A B : Type} (f : B -> A -> Z -> B) (l : list A)
  (i : Z) (a : B) : B :=
  match l with
  | [] => a
  | c :: rest => reduce_indexed f rest (i + 1) (f a c i)
  end.

(** [l.sort((a, b) => a.id - b.id)].  The sort of an array is stable, and
    a list has one stable ordering by a key: the one insertion computes. *)
Fixpoint insert_by_id (x : CaptureImage) (l : list CaptureImage)
  : list CaptureImage :=
  match l with
  | [] => [x]
  | y :: rest => if id x <=? id y then x :: y :: rest
                 else y :: insert_by_id x rest
  end.

Fixpoint sort_by_id (l : list CaptureImage) : list CaptureImage :=
  match l with
  | [] => []
  | x :: rest => insert_by_id x (sort_by_id rest)
  end.

(** The double that holds a count: the loop counter of a batch starts at
    [0] and is incremented by additions of [1]; the length of an array is
    that same double (lengths are below 2^32, where these additions are
    exact). *)
Fixpoint number (n : nat) : float :=
  match n with
  | O => 0%float
  | S k => (number k + 1)%float
  end.

(** [100 * (done / total)], the division first, both operations rounded
    to the nearest double. *)
Definition percent (done total : nat) : float :=
  (100 * (number done / number total))%float.

(** ** The handlers *)

Section Handlers.

Variable backend : Backend.

(** [await api.r(...)]: the request is logged with its outcome; a
    rejected promise throws. *)
Definition call_with {A : Type}
  (value : list api.request -> api.request -> A) (r : api.request) : M A :=
  fun h =>
    let ok := resolves backend (requests h) r in
    (if ok then Returned (value (requests h) r) else Threw (Rejected r),
     h ++ [Call r ok]).

Definition call (r : api.request) : M unit := call_with (fun _ _ => tt) r.

(** [undoedCaptureImage = (state, captureId) => ...]: both parameters are
    values that may be [undefined]. *)
Definition undoedCaptureImage (s : State) (state captureId : option Z)
  : M unit :=
  match captureImagesUndo s with
  | [] => throw TypeError
  | first :: rest =>
      let captureUndo :=
        fold_left (fun a c => if strict_eq (id c) captureId then c else a)
                  rest first in
      let undoneImages :=
        List.filter (fun capture => negb (strict_eq (id capture) captureId))
                    (captureImagesUndo s) in
      let captures := sort_by_id (captureImages s ++ [captureUndo]) in
      setCaptureImages captures ;;
      setCaptureImagesUndo undoneImages
  end.

Definition reset : M unit :=
  setCaptureImages [] ;;
  setCurrentPage 0 ;;
  setCaptureCount None ;;
  setInvalidateCaptureCount true.

Definition resetSelection : M unit :=
  setCaptureImagesSelected [] ;;
  setCaptureImageAnchor None.

Definition approve (approveAction : option ApproveAction) (id : Z) : M bool :=
  match approveAction with
  | None => throw (Error "no approve action object!")
  | Some a =>
      (if isApproved a
       then call (api.approveCaptureImage id (morphology a) (age a)
                    (captureApprovalTag a) (speciesId a))
       else call (api.rejectCaptureImage id (rejectionReason a))) ;;
      match tags a with
      | Some l => call (api.createCaptureTags id l)
      | None => ret tt
      end ;;
      ret true
  end.

(** [undoCaptureImage] calls [undoedCaptureImage(id)]: one argument, so
    [state] receives the id and [captureId] is [undefined]. *)
Definition undoCaptureImage (s : State) (id : Z) : M bool :=
  call (api.undoCaptureImage id) ;;
  undoedCaptureImage s (Some id) None ;;
  ret true.

(** The page request [loadCaptureImages] builds. *)
Definition pageParams (s : State) (abortController : option nat)
  : api.request :=
  api.getCaptureImages (pageSize s * currentPage s) (pageSize s) (filter s)
    abortController.

(** [loadCaptureImages]; the result is [Some true] for [return true] and
    [None] when the function ends without a [return]. *)
Definition loadCaptureImages (s : State) (abortController : option nat)
  : M (option bool) :=
  if isLoading s then ret (Some true)
  else
    setIsLoading true ;;
    result <- call_with (page_of backend) (pageParams s abortController) ;;
    setCaptureImages result ;;
    setIsLoading false ;;
    ret None.

(** The snapshot [approveAll] takes for the undo list. *)
Definition undo_snapshot (s : State) : list CaptureImage :=
  List.filter
    (fun capture =>
       existsb (fun id' => id' =? id capture) (captureImagesSelected s))
    (captureImages s).

(** The capture [approveAll] resolves for a selected id: the last one of
    the page with that id, [undefined] when there is none. *)
Definition lookup_capture (s : State) (captureId : option Z)
  : option CaptureImage :=
  fold_left (fun a c => if strict_eq (id c) captureId then Some c else a)
            (captureImages s) None.

(** The body of the loop of [approveAll] at index [i]. *)
Definition approveAll_item (s : State) (approveAction : option ApproveAction)
  (total : nat) (i : nat) : M unit :=
  let captureId := nth_error (captureImagesSelected s) i in
  match lookup_capture s captureId with
  | None => throw TypeError
  | Some captureImage =>
      approve approveAction (id captureImage) ;;
      setApproveAllComplete (percent (S i) total)
  end.

(** The loop of [approveAll]. *)
Definition approveAll_batch (s : State) (approveAction : option ApproveAction)
  : M unit :=
  let total := length (captureImagesSelected s) in
  for_range total 0 (approveAll_item s approveAction total).

(** [approveAll].  The [catch] block returns [false]; what follows the
    [try] statement runs when the loop ended without an exception. *)
Definition approveAll (s : State) (approveAction : option ApproveAction)
  : M bool :=
  setIsLoading true ;;
  setIsApproveAllProcessing true ;;
  let undo := undo_snapshot s in
  completed <-
    try_catch (approveAll_batch s approveAction ;; ret true)
      (fun e =>
         setIsLoading false ;;
         setIsApproveAllProcessing false ;;
         ret false) ;;
  if completed : bool then
    setCaptureImagesUndo undo ;;
    setIsLoading false ;;
    loadCaptureImages s None ;;
    setIsApproveAllProcessing false ;;
    setApproveAllComplete 0%float ;;
    setInvalidateCaptureCount true ;;
    resetSelection ;;
    ret true
  else ret false.

(** The body of the loop of [undoAll] at index [i]. *)
Definition undoAll_item (s : State) (total : nat) (i : nat) : M unit :=
  match nth_error (captureImagesUndo s) i with
  | None => throw TypeError
  | Some captureImage =>
      undoCaptureImage s (id captureImage) ;;
      setApproveAllComplete (percent (S i) total) ;;
      setInvalidateCaptureCount true
  end.

(** The loop of [undoAll]. *)
Definition undoAll_batch (s : State) : M unit :=
  let total := length (captureImagesUndo s) in
  for_range (length (captureImagesUndo s)) 0 (undoAll_item s total).

Definition undoAll (s : State) : M bool :=
  setIsLoading true ;;
  setIsApproveAllProcessing true ;;
  completed <-
    try_catch (undoAll_batch s ;; ret true)
      (fun e =>
         setIsLoading true ;;
         setIsApproveAllProcessing true ;;
         ret false) ;;
  if completed : bool then
    setIsLoading false ;;
    setIsApproveAllProcessing false ;;
    setApproveAllComplete 0%float ;;
    setInvalidateCaptureCount true ;;
    resetSelection ;;
    ret true
  else ret false.

(** [updateFilter(updatedFilter = filter)]. *)
Definition updateFilter (s : State) (updatedFilter : option FilterModel)
  : M unit :=
  setFilter (match updatedFilter with Some f => f | None => filter s end) ;;
  reset ;;
  resetSelection.

(** [getCaptureCount(newfilter = filter)]. *)
Definition getCaptureCount (s : State) (newfilter : option FilterModel)
  : M unit :=
  let f := match newfilter with Some f => f | None => filter s end in
  result <- call_with (count_of backend) (api.getCaptureCount f) ;;
  setCaptureCount (Some result) ;;
  setInvalidateCaptureCount false.

(** The index [clickCapture] computes for an id: the last position of the
    page that holds it, [-1] when there is none. *)
Definition index_of_id (s : State) (target : Z) : Z :=
  reduce_indexed (fun a c i => if id c =? target then i else a)
                 (captureImages s) 0 (-1).

Definition clickCapture (s : State) (payload : ClickPayload) : M unit :=
  let captureId := captureId payload in
  if negb (isShift payload) && negb (isCmd payload) && negb (isCtrl payload)
  then
    setCaptureImagesSelected [captureId] ;;
    setCaptureImageAnchor (Some captureId)
  else if isShift payload then
    let indexAnchor :=
      match captureImageAnchor s with
      | None => 0
      | Some anchor => index_of_id s anchor
      end in
    let indexCurrent := index_of_id s captureId in
    let selected :=
      map id (slice (captureImages s)
                    (Z.min indexAnchor indexCurrent)
                    (Z.max indexAnchor indexCurrent + 1)) in
    setCaptureImagesSelected selected
  else if isCmd payload || isCtrl payload then
    let selectedImages :=
      if truthy (find (fun el => el =? captureId) (captureImagesSelected s))
      then List.filter (fun capture => negb (capture =? captureId))
                       (captureImagesSelected s)
      else captureImagesSelected s ++ [captureId] in
    setCaptureImagesSelected selectedImages
  else ret tt.

End Handlers.

(** The selection a modifier click computes. *)
Definition toggled (sel : list Z) (cid : Z) : list Z :=
  if truthy (find (fun el => el =? cid) sel)
  then List.filter (fun capture => negb (capture =? cid)) sel
  else sel ++ [cid].


(** ** Observations on traces *)

(** The approve and reject calls of a trace, with their outcome. *)
Definition verdicts (t : list event) : list (api.request * bool) :=
  List.filter (fun c => api.is_verdict (fst c)) (calls t).

(** The values written to [approveAllComplete], in order. *)
Definition progress (t : list event) : list float :=
  flat_map (fun e => match e with SetApproveAllComplete v => [v] | _ => [] end)
           t.

(** Every API call of the trace resolved. *)
Definition all_resolved (t : list event) : Prop :=
  Forall (fun c => snd c = true) (calls t).

(** The request [approve] sends first for an action and an id. *)
Definition verdict_request (a : ApproveAction) (id : Z) : api.request :=
  if isApproved a
  then api.approveCaptureImage id (morphology a) (age a)
         (captureApprovalTag a) (speciesId a)
  else api.rejectCaptureImage id (rejectionReason a).

(** Events that write no cell but [approveAllComplete]. *)
Definition progress_event (e : event) : Prop :=
  match e with
  | Call _ _ | SetApproveAllComplete _ => True
  | _ => False
  end.

(** The events an iteration of [approveAll] produces: approve, reject and
    tag calls and writes of the progress. *)
Definition approve_event (e : event) : Prop :=
  match e with
  | Call r _ => api.is_item_call r = true
  | SetApproveAllComplete _ => True
  | _ => False
  end.

(** The ids of the captures a JavaScript reader would expect a shift
    click to select: the entries of the page at the positions [lo] to
    [hi], both included. *)
Definition range_ids (s : State) (lo hi : Z) : list Z :=
  map id (firstn (Z.to_nat (hi - lo + 1))
                 (skipn (Z.to_nat lo) (captureImages s))).

(** The requests of a trace that satisfy [key], in order. *)
Definition key_requests (key : api.request -> bool) (t : list event)
  : list api.request :=
  List.filter key (requests t).

(** ** Batches

    Both batch loops run a body that either completes an item (its calls
    resolve and it writes the progress once), or stops at a rejected
    call, or throws before any call. *)

(** How one iteration, started on the trace [h], may end. *)
Inductive item_run (good : event -> Prop) (key : api.request -> bool)
  (expected : api.request) (pct : float) (crash : Prop) (h : list event)
  : result unit * list event -> Prop :=
| item_done (t : list event) :
    Forall good t -> all_resolved t -> progress t = [pct] ->
    key_requests key t = [expected] ->
    item_run good key expected pct crash h (Returned tt, h ++ t)
| item_rejected (t0 : list event) (r0 : api.request) :
    Forall good (t0 ++ [Call r0 false]) -> all_resolved t0 ->
    progress t0 = [] ->
    key_requests key (t0 ++ [Call r0 false]) = [expected] ->
    item_run good key expected pct crash h
      (Threw (Rejected r0), h ++ t0 ++ [Call r0 false])
| item_crashed (e : exn) :
    crash -> (forall r0, e <> Rejected r0) ->
    item_run good key expected pct crash h (Threw e, h).

(** How the loop over the items [i], ..., [i + n - 1] may end: [m] items
    completed; the events [t] were added to the trace. *)
Inductive batch_run (key : api.request -> bool)
  (expected : nat -> api.request) (crashes : nat -> Prop) (i n : nat)
  : result unit -> list event -> nat -> Prop :=
| batch_completed (t : list event) :
    all_resolved t ->
    key_requests key t = map expected (seq i n) ->
    batch_run key expected crashes i n (Returned tt) t n
| batch_rejected (t0 : list event) (r0 : api.request) (m : nat) :
    (m < n)%nat -> all_resolved t0 ->
    key_requests key (t0 ++ [Call r0 false]) = map expected (seq i (S m)) ->
    batch_run key expected crashes i n (Threw (Rejected r0))
      (t0 ++ [Call r0 false]) m
| batch_crashed (e : exn) (t : list event) (m : nat) :
    (m < n)%nat -> all_resolved t -> crashes (i + m)%nat ->
    (forall r0, e <> Rejected r0) ->
    key_requests key t = map expected (seq i m) ->
    batch_run key expected crashes i n (Threw e) t m.

(** The verdict request the [i]-th iteration of [approveAll] sends for
    the action [a], and the condition under which that iteration finds
    no capture for the selected id. *)
Definition expected_verdict (s : State) (a : ApproveAction) (i : nat)
  : api.request :=
  verdict_request a (nth i (captureImagesSelected s) 0).

Definition unresolved (s : State) (i : nat) : Prop :=
  lookup_capture s (nth_error (captureImagesSelected s) i) = None.

(** The undo request the [i]-th iteration of [undoAll] sends. *)
Definition expected_undo (s : State) (i : nat) : api.request :=
  api.undoCaptureImage (id (nth i (captureImagesUndo s) (mkCapture 0 ""))).

(** Every selected id is the id of a capture of the page. *)
Definition selection_on_page (s : State) : Prop :=
  forall x, In x (captureImagesSelected s) -> In x (map id (captureImages s)).

(** ** The shape of a batch approve *)

(** What [approveAll] writes before its loop and after the reload. *)
Definition approveAll_prologue : list event :=
  [SetIsLoading true; SetIsApproveAllProcessing true].

Definition approveAll_epilogue : list event :=
  [SetIsApproveAllProcessing false; SetApproveAllComplete 0%float;
   SetInvalidateCaptureCount true; SetCaptureImagesSelected [];
   SetCaptureImageAnchor None].

(** What follows the loop of [approveAll] once the undo list is
    installed: the reload is skipped, done, or its request is rejected. *)
Inductive approveAll_tail (s : State) : list event -> result bool -> Prop :=
| reload_skipped :
    isLoading s = true ->
    approveAll_tail s approveAll_epilogue (Returned true)
| reload_done (page : list CaptureImage) :
    isLoading s = false ->
    approveAll_tail s
      ([SetIsLoading true; Call (pageParams s None) true;
        SetCaptureImages page; SetIsLoading false] ++ approveAll_epilogue)
      (Returned true)
| reload_rejected :
    isLoading s = false ->
    approveAll_tail s [SetIsLoading true; Call (pageParams s None) false]
      (Threw (Rejected (pageParams s None))).

(** The page every iteration of [undoAll] over the snapshot [s] writes:
    the page of the snapshot with the first capture of its undo list. *)
Definition restored_page (s : State) : list CaptureImage :=
  match captureImagesUndo s with
  | [] => captureImages s
  | first :: _ => sort_by_id (captureImages s ++ [first])
  end.

(** The events of the [i]-th iteration of [undoAll] when its request
    resolves. *)
Definition undo_item_events (s : State) (i : nat) : list event :=
  [Call (expected_undo s i) true;
   SetCaptureImages (restored_page s);
   SetCaptureImagesUndo (captureImagesUndo s);
   SetApproveAllComplete (percent (S i) (List.length (captureImagesUndo s)));
   SetInvalidateCaptureCount true].

(** The values written to [captureImages] and to [captureImagesUndo]. *)
Definition page_writes (t : list event) : list (list CaptureImage) :=
  flat_map (fun e => match e with SetCaptureImages v => [v] | _ => [] end) t.

Definition undo_writes (t : list event) : list (list CaptureImage) :=
  flat_map (fun e => match e with SetCaptureImagesUndo v => [v] | _ => [] end)
           t.

(** What [undoAll] writes before its loop, after it, and in its [catch]
    block. *)
Definition undoAll_prologue : list event :=
  [SetIsLoading true; SetIsApproveAllProcessing true].

Definition undoAll_epilogue : list event :=
  [SetIsLoading false; SetIsApproveAllProcessing false;
   SetApproveAllComplete 0%float; SetInvalidateCaptureCount true;
   SetCaptureImagesSelected []; SetCaptureImageAnchor None].

Definition undoAll_catch : list event :=
  [SetIsLoading true; SetIsApproveAllProcessing true].

(** What [approve] does with an action: the verdict call, then the tag
    call when the action has tags; it stops at the first rejected call. *)
Inductive approve_run (a : ApproveAction) (id : Z) (h : list event)
  : result bool * list event -> Prop :=
| approve_done (t : list event) :
    (tags a = None /\ t = []
     \/ exists l, tags a = Some l /\ t = [Call (api.createCaptureTags id l) true]) ->
    approve_run a id h (Returned true, h ++ Call (verdict_request a id) true :: t)
| approve_verdict_rejected :
    approve_run a id h
      (Threw (Rejected (verdict_request a id)),
       h ++ [Call (verdict_request a id) false])
| approve_tags_rejected (l : list string) :
    tags a = Some l ->
    approve_run a id h
      (Threw (Rejected (api.createCaptureTags id l)),
       h ++ [Call (verdict_request a id) true;
             Call (api.createCaptureTags id l) false]).


(** ** The effects of the component *)

Section Effects.

Variable backend : Backend.

(** The body of the first [useEffect]: fetch the count when it is marked
    invalid.  The promise of [getCaptureCount] is not awaited; [Threw]
    stands for its unhandled rejection. *)
Definition countEffect (s : State) : M unit :=
  if invalidateCaptureCount s then getCaptureCount backend s None
  else ret tt.

(** The body of the second [useEffect], run when the filter, the page
    size or the page number changed: empty the page, then load with the
    signal of a fresh abort controller. *)
Definition loadEffect (s : State) (signal : nat) : M (option bool) :=
  setCaptureImages [] ;;
  loadCaptureImages backend s (Some signal).

End Effects.

(** The dependencies of the second [useEffect]: it runs again after a
    render in which one of them changed. *)
Definition loadEffect_deps (s : State) : FilterModel * Z * Z :=
  (filter s, pageSize s, currentPage s).

(** ** Further observations *)

(** The requests [approve] sends for an action and an id when every one of
    them resolves: the verdict, then the tags when the action has some. *)
Definition item_requests (a : ApproveAction) (x : Z) : list api.request :=
  verdict_request a x
  :: match tags a with
     | Some l => [api.createCaptureTags x l]
     | None => []
     end.

(** Ascending order of ids. *)
Definition id_le (a b : CaptureImage) : Prop := id a <= id b.

(** The selection a shift click computes from the anchor and the clicked
    id. *)
Definition shift_selection (s : State) (anchor : option Z) (cid : Z)
  : list Z :=
  let indexAnchor :=
    match anchor with
    | None => 0
    | Some a => index_of_id s a
    end in
  let indexCurrent := index_of_id s cid in
  map id (slice (captureImages s) (Z.min indexAnchor indexCurrent)
                (Z.max indexAnchor indexCurrent + 1)).

(** The events an iteration of [undoAll] produces: the undo call and the
    writes of the page, the undo list, the progress and the invalidation
    flag. *)
Definition undo_loop_event (e : event) : Prop :=
  match e with
  | Call _ _ | SetCaptureImages _ | SetCaptureImagesUndo _
  | SetApproveAllComplete _ | SetInvalidateCaptureCount _ => True
  | _ => False
  end.
(** ** Sample data *)

Definition capture (n : Z) : CaptureImage := mkCapture n "".

(** A page holding the captures 1 to 5, nothing selected. *)
Definition page_1_to_5 : State :=
  run_state initialState [SetCaptureImages (map capture [1; 2; 3; 4; 5])].

(** The same page with the captures 2, 3 and 4 selected. *)
Definition selected_2_3_4 : State :=
  run_state page_1_to_5 [SetCaptureImagesSelected [2; 3; 4]].

(** The same page with an anchor left over from another page. *)
Definition stale_anchor : State :=
  run_state page_1_to_5 [SetCaptureImageAnchor (Some 9)].

(** A page with the captures 1 and 3 and an undo list with 2 and 4. *)
Definition undo_2_4 : State :=
  run_state initialState
    [SetCaptureImages (map capture [1; 3]);
     SetCaptureImagesUndo (map capture [2; 4])].

(** The page 1 to 5 with 2, 4 and 5 selected. *)
Definition selected_2_4_5 : State :=
  run_state page_1_to_5 [SetCaptureImagesSelected [2; 4; 5]].

(** The page 1 to 5 with a selected id that is not on the page. *)
Definition selected_absent : State :=
  run_state page_1_to_5 [SetCaptureImagesSelected [7]].

(** A load is under way. *)
Definition loading : State :=
  run_state page_1_to_5 [SetIsLoading true].

(** A server that resolves every request; a page request gets the
    captures 7 and 8. *)
Definition server_ok : Backend :=
  mkBackend (fun _ _ => true) (fun _ _ => map capture [7; 8]) (fun _ _ => 2).

(** A server that rejects the request made after [n] earlier ones. *)
Definition server_failing_at (n : nat) : Backend :=
  mkBackend (fun h _ => negb (Nat.eqb (List.length h) n))
            (fun _ _ => map capture [7; 8]) (fun _ _ => 2).

Definition approve_action : ApproveAction :=
  mkAction true "seedling" "new_tree" "simple_leaf" 12 "" None.

Definition reject_action_with_tags : ApproveAction :=
  mkAction false "" "" "" 0 "blurry" (Some ["dry"%string]).

(** A server that rejects every request. *)
Definition server_down : Backend :=
  mkBackend (fun _ _ => false) (fun _ _ => []) (fun _ _ => 0).

(** ** The store *)

Lemma run_state_app (st : State) (t1 t2 : list event) :
  run_state st (t1 ++ t2) = run_state (run_state st t1) t2.
Proof. unfold run_state. apply fold_left_app. Qed.

(** ** Selection *)

Lemma find_present (x : Z) (l : list Z) :
  In x l -> find (fun el => el =? x) l = Some x.
Proof.
  induction l as [|y l IH]; simpl; [tauto|].
  intros [->|Hin].
  - now rewrite Z.eqb_refl.
  - destruct (Z.eqb_spec y x) as [->|_]; auto.
Qed.

Lemma find_absent (x : Z) (l : list Z) :
  ~ In x l -> find (fun el => el =? x) l = None.
Proof.
  induction l as [|y l IH]; simpl; [reflexivity|].
  intros Hnot. destruct (Z.eqb_spec y x) as [->|_]; [tauto|].
  apply IH. tauto.
Qed.

Lemma filter_out_absent (x : Z) (l : list Z) :
  ~ In x l -> List.filter (fun c => negb (c =? x)) l = l.
Proof.
  induction l as [|y l IH]; simpl; [reflexivity|].
  intros Hnot. destruct (Z.eqb_spec y x) as [->|_]; simpl; [tauto|].
  f_equal. apply IH. tauto.
Qed.

Lemma filter_out_removes (x : Z) (l : list Z) :
  ~ In x (List.filter (fun c => negb (c =? x)) l).
Proof.
  rewrite filter_In. intros [_ H]. now rewrite Z.eqb_refl in H.
Qed.

Lemma modifier_click_state (s : State) (cid : Z) (cmd ctrl : bool) :
  cmd || ctrl = true ->
  next_state s (clickCapture s (mkClick cid false cmd ctrl))
  = apply_event s
      (SetCaptureImagesSelected (toggled (captureImagesSelected s) cid)).
Proof.
  intros H. unfold next_state, trace_of, clickCapture, toggled. simpl.
  destruct cmd, ctrl; simpl in *; try discriminate; reflexivity.
Qed.

Lemma toggled_present (sel : list Z) (cid : Z) :
  cid <> 0 -> In cid sel ->
  toggled sel cid = List.filter (fun c => negb (c =? cid)) sel.
Proof.
  intros Hnz Hin. unfold toggled. rewrite (find_present _ _ Hin). simpl.
  destruct (Z.eqb_spec cid 0); [contradiction|reflexivity].
Qed.

Lemma toggled_absent (sel : list Z) (cid : Z) :
  ~ In cid sel -> toggled sel cid = sel ++ [cid].
Proof.
  intros Hnot. unfold toggled. now rewrite (find_absent _ _ Hnot).
Qed.

(** The clicks of the example given with the component: on the page 1
    to 5, a click on 2, a shift click on 5, a ctrl click on 3. *)
Lemma click_sequence :
  let s1 := next_state page_1_to_5
              (clickCapture page_1_to_5 (mkClick 2 false false false)) in
  let s2 := next_state s1 (clickCapture s1 (mkClick 5 true false false)) in
  let s3 := next_state s2 (clickCapture s2 (mkClick 3 false false true)) in
  (captureImagesSelected s1, captureImageAnchor s1) = ([2], Some 2)
  /\ (captureImagesSelected s2, captureImageAnchor s2) = ([2; 3; 4; 5], Some 2)
  /\ (captureImagesSelected s3, captureImageAnchor s3) = ([2; 4; 5], Some 2).
Proof. repeat split. Qed.

(** C10.  A plain click (no shift, cmd or ctrl) makes the clicked id the
    whole selection and the anchor, whatever the page holds: no hypothesis
    ties [cid] to [captureImages s], so an id that is not on the page is
    selected and anchored as well.  The other cells are not written. *)
Theorem plain_click_selects_clicked_id (s : State) (cid : Z) :
  let s' := next_state s (clickCapture s (mkClick cid false false false)) in
  captureImagesSelected s' = [cid]
  /\ captureImageAnchor s' = Some cid
  /\ captureImages s' = captureImages s
  /\ trace_of (clickCapture s (mkClick cid false false false))
     = [SetCaptureImagesSelected [cid]; SetCaptureImageAnchor (Some cid)].
Proof. repeat split. Qed.

(** C7, as the code has it.  For an id other than 0, a cmd or ctrl click
    toggles the id (all its occurrences are filtered out if it is
    selected, else it is appended) and a second click on the same id
    toggles it back: the selection then has the ids it had before the
    first click, it is the very same sequence when the id was not
    selected before, and when the id was selected it has moved to the
    end.  The anchor is never written. *)
Theorem modifier_double_click (s : State) (cid : Z) (cmd ctrl : bool) :
  cid <> 0 ->
  cmd || ctrl = true ->
  let p := mkClick cid false cmd ctrl in
  let s1 := next_state s (clickCapture s p) in
  let s2 := next_state s1 (clickCapture s1 p) in
  let sel := captureImagesSelected s in
  let without := List.filter (fun c => negb (c =? cid)) sel in
  captureImageAnchor s1 = captureImageAnchor s
  /\ captureImageAnchor s2 = captureImageAnchor s
  /\ (In cid sel ->
      captureImagesSelected s1 = without
      /\ captureImagesSelected s2 = without ++ [cid])
  /\ (~ In cid sel ->
      captureImagesSelected s1 = sel ++ [cid]
      /\ captureImagesSelected s2 = sel)
  /\ (forall x, In x (captureImagesSelected s2) <-> In x sel).
Proof.
  intros Hnz Hmod p s1 s2 sel without.
  assert (E1 : s1 = apply_event s (SetCaptureImagesSelected (toggled sel cid)))
    by (apply modifier_click_state; exact Hmod).
  assert (E2 : s2 = apply_event s1
             (SetCaptureImagesSelected (toggled (captureImagesSelected s1) cid)))
    by (apply modifier_click_state; exact Hmod).
  assert (Hin : In cid sel ->
                captureImagesSelected s1 = without
                /\ captureImagesSelected s2 = without ++ [cid]).
  { intros Hin. rewrite E2, E1. simpl.
    rewrite (toggled_present _ _ Hnz Hin). split; [reflexivity|].
    apply toggled_absent, filter_out_removes. }
  assert (Hout : ~ In cid sel ->
                 captureImagesSelected s1 = sel ++ [cid]
                 /\ captureImagesSelected s2 = sel).
  { intros Hnot. rewrite E2, E1. simpl.
    rewrite (toggled_absent _ _ Hnot). split; [reflexivity|].
    rewrite toggled_present by (auto; apply in_or_app; right; now left).
    rewrite filter_app. simpl. rewrite Z.eqb_refl. simpl.
    rewrite app_nil_r. now apply filter_out_absent. }
  split; [now rewrite E1|]. split; [now rewrite E2, E1|].
  split; [exact Hin|]. split; [exact Hout|].
  intros x. destruct (in_dec Z.eq_dec cid sel) as [Hc|Hc].
  - destruct (Hin Hc) as [_ ->]. unfold without.
    rewrite in_app_iff, filter_In. simpl. split.
    + intros [[Hx _]|[<-|[]]]; assumption.
    + intros Hx. destruct (Z.eqb_spec x cid) as [->|Hne]; [right; now left|].
      left. split; [assumption|reflexivity].
  - destruct (Hout Hc) as [_ ->]. reflexivity.
Qed.

(** A ctrl click, twice, on an id that was not selected. *)
Lemma modifier_double_click_witness :
  let p := mkClick 5 false false true in
  let s1 := next_state selected_2_3_4 (clickCapture selected_2_3_4 p) in
  let s2 := next_state s1 (clickCapture s1 p) in
  captureImagesSelected s1 = [2; 3; 4; 5]
  /\ captureImagesSelected s2 = [2; 3; 4].
Proof.
  assert (H5 : 5 <> 0) by discriminate.
  assert (Hm : false || true = true) by reflexivity.
  destruct (modifier_double_click selected_2_3_4 5 false true H5 Hm)
    as (_ & _ & _ & Hout & _).
  apply Hout. simpl. intros [H|[H|[H|[]]]]; discriminate H.
Defined.

(** C7 as stated fails: a double ctrl click on a selected id that is not
    the last one moves it to the end of the sequence. *)
Lemma modifier_double_click_reorders :
  let p := mkClick 3 false false true in
  let s1 := next_state selected_2_3_4 (clickCapture selected_2_3_4 p) in
  let s2 := next_state s1 (clickCapture s1 p) in
  captureImagesSelected selected_2_3_4 = [2; 3; 4]
  /\ captureImagesSelected s1 = [2; 4]
  /\ captureImagesSelected s2 = [2; 4; 3]
  /\ captureImagesSelected s2 <> captureImagesSelected selected_2_3_4.
Proof. repeat split. discriminate. Qed.

(** ** Traces *)

Lemma calls_app (t1 t2 : list event) : calls (t1 ++ t2) = calls t1 ++ calls t2.
Proof. unfold calls. apply flat_map_app. Qed.

Lemma verdicts_app (t1 t2 : list event) :
  verdicts (t1 ++ t2) = verdicts t1 ++ verdicts t2.
Proof. unfold verdicts. rewrite calls_app. apply filter_app. Qed.

Lemma progress_app (t1 t2 : list event) :
  progress (t1 ++ t2) = progress t1 ++ progress t2.
Proof. unfold progress. apply flat_map_app. Qed.

Lemma all_resolved_app (t1 t2 : list event) :
  all_resolved (t1 ++ t2) <-> all_resolved t1 /\ all_resolved t2.
Proof. unfold all_resolved. rewrite calls_app. apply Forall_app. Qed.

Lemma all_resolved_no_failure (t : list event) (r : api.request) :
  all_resolved t -> ~ In (r, false) (calls t).
Proof.
  unfold all_resolved. rewrite Forall_forall. intros H Hin.
  specialize (H _ Hin). discriminate H.
Qed.

(** A trace of progress events leaves every cell but [approveAllComplete]
    as it was. *)
Lemma run_state_progress_events (t : list event) :
  Forall progress_event t ->
  forall st q,
    apply_event (run_state st t) (SetApproveAllComplete q)
    = apply_event st (SetApproveAllComplete q).
Proof.
  induction 1 as [|e t He _ IH]; intros st q; [reflexivity|].
  change (run_state st (e :: t)) with (run_state (apply_event st e) t).
  rewrite IH. destruct e; simpl in He; try contradiction; reflexivity.
Qed.

Lemma progress_events_frame (t : list event) (st : State) :
  Forall progress_event t ->
  captureImages (run_state st t) = captureImages st
  /\ captureImagesUndo (run_state st t) = captureImagesUndo st
  /\ captureImagesSelected (run_state st t) = captureImagesSelected st
  /\ captureImageAnchor (run_state st t) = captureImageAnchor st
  /\ isLoading (run_state st t) = isLoading st
  /\ isApproveAllProcessing (run_state st t) = isApproveAllProcessing st
  /\ invalidateCaptureCount (run_state st t) = invalidateCaptureCount st.
Proof.
  intros H. pose proof (run_state_progress_events t H st 0%float) as E.
  repeat split.
  - exact (f_equal captureImages E).
  - exact (f_equal captureImagesUndo E).
  - exact (f_equal captureImagesSelected E).
  - exact (f_equal captureImageAnchor E).
  - exact (f_equal isLoading E).
  - exact (f_equal isApproveAllProcessing E).
  - exact (f_equal invalidateCaptureCount E).
Qed.

(** ** The effects of the handlers *)

Section Runs.

Variable backend : Backend.

Lemma call_resolved (r : api.request) (h : list event) :
  resolves backend (requests h) r = true ->
  call backend r h = (Returned tt, h ++ [Call r true]).
Proof. intros H. unfold call, call_with. now rewrite H. Qed.

Lemma call_rejected (r : api.request) (h : list event) :
  resolves backend (requests h) r = false ->
  call backend r h = (Threw (Rejected r), h ++ [Call r false]).
Proof. intros H. unfold call, call_with. now rewrite H. Qed.

Lemma approve_runs (a : ApproveAction) (id : Z) (h : list event) :
  approve_run a id h (approve backend (Some a) id h).
Proof.
  assert (E : approve backend (Some a) id
              = (call backend (verdict_request a id) ;;
                 match tags a with
                 | Some l => call backend (api.createCaptureTags id l)
                 | None => ret tt
                 end ;;
                 ret true)).
  { unfold approve, verdict_request. now destruct (isApproved a). }
  rewrite E. unfold bind.
  destruct (resolves backend (requests h) (verdict_request a id)) eqn:Hv.
  - rewrite (call_resolved _ _ Hv).
    destruct (tags a) as [l|] eqn:Ht.
    + destruct (resolves backend
                  (requests (h ++ [Call (verdict_request a id) true]))
                  (api.createCaptureTags id l)) eqn:Hg.
      * rewrite (call_resolved _ _ Hg). unfold ret.
        rewrite <- app_assoc. simpl.
        apply approve_done. right. now exists l.
      * rewrite (call_rejected _ _ Hg). rewrite <- app_assoc. simpl.
        now apply approve_tags_rejected.
    + unfold ret. apply approve_done. now left.
  - rewrite (call_rejected _ _ Hv). apply approve_verdict_rejected.
Qed.

End Runs.

Lemma requests_app (t1 t2 : list event) :
  requests (t1 ++ t2) = requests t1 ++ requests t2.
Proof. unfold requests. rewrite calls_app. apply map_app. Qed.

Lemma key_requests_app (key : api.request -> bool) (t1 t2 : list event) :
  key_requests key (t1 ++ t2) = key_requests key t1 ++ key_requests key t2.
Proof. unfold key_requests. rewrite requests_app. apply filter_app. Qed.

Lemma key_requests_verdicts (t : list event) :
  key_requests api.is_verdict t = map fst (verdicts t).
Proof.
  unfold key_requests, requests, verdicts.
  induction (calls t) as [|[r ok] l IH]; simpl; [reflexivity|].
  destruct (api.is_verdict r); simpl; now rewrite IH.
Qed.

(** ** The batch loop *)

Section Loop.

Variable body : nat -> M unit.
Variable total : nat.
Variable good : event -> Prop.
Variable key : api.request -> bool.
Variable expected : nat -> api.request.
Variable crashes : nat -> Prop.

Hypothesis body_runs : forall i h,
  (i < total)%nat ->
  item_run good key (expected i) (percent (S i) total) (crashes i) h (body i h).

Lemma for_range_runs (n : nat) : forall i h,
  (i + n <= total)%nat ->
  exists r t m,
    for_range n i body h = (r, h ++ t)
    /\ Forall good t
    /\ progress t = map (fun j => percent j total) (seq (S i) m)
    /\ batch_run key expected crashes i n r t m.
Proof.
  induction n as [|n IH]; intros i h Hle.
  - exists (Returned tt), [], O. simpl. unfold ret. rewrite app_nil_r.
    split; [reflexivity|]. split; [constructor|]. split; [reflexivity|].
    apply batch_completed; [constructor|reflexivity].
  - assert (Hi : (i < total)%nat) by lia.
    simpl. unfold bind.
    destruct (body_runs i h Hi) as [t1 Hg Hr Hp Hk|t0 r0 Hg Hr Hp Hk|e Hc He].
    + destruct (IH (S i) (h ++ t1)) as (r & t2 & m & E & Hg2 & Hp2 & Hb);
        [lia|].
      rewrite E, <- app_assoc.
      assert (Hk' : forall k,
                 key_requests key t2 = map expected (seq (S i) k) ->
                 key_requests key (t1 ++ t2) = map expected (seq i (S k))).
      { intros k Ek. rewrite key_requests_app, Hk, Ek. reflexivity. }
      clear E. revert Hg2 Hp2.
      destruct Hb as [t2 Ha Ek|t0 r0 m Hm Ha Ek|e t2 m Hm Ha Hc He Ek];
        intros Hg2 Hp2.
      * exists (Returned tt), (t1 ++ t2), (S n).
        split; [reflexivity|]. split; [now apply Forall_app|].
        split; [rewrite progress_app, Hp, Hp2; reflexivity|].
        apply batch_completed; [now apply all_resolved_app|now apply Hk'].
      * exists (Threw (Rejected r0)), (t1 ++ t0 ++ [Call r0 false]), (S m).
        split; [reflexivity|]. split; [now apply Forall_app|].
        split; [rewrite progress_app, Hp, Hp2; reflexivity|].
        rewrite app_assoc.
        apply batch_rejected; [lia|now apply all_resolved_app|].
        rewrite <- app_assoc. now apply Hk'.
      * exists (Threw e), (t1 ++ t2), (S m).
        split; [reflexivity|]. split; [now apply Forall_app|].
        split; [rewrite progress_app, Hp, Hp2; reflexivity|].
        apply batch_crashed; try assumption; [lia|now apply all_resolved_app| |
                                               now apply Hk'].
        now rewrite Nat.add_succ_r.
    + exists (Threw (Rejected r0)), (t0 ++ [Call r0 false]), O.
      split; [reflexivity|]. split; [assumption|].
      split; [rewrite progress_app, Hp; reflexivity|].
      apply batch_rejected; [lia|assumption|exact Hk].
    + exists (Threw e), [], O. rewrite app_nil_r.
      split; [reflexivity|]. split; [constructor|]. split; [reflexivity|].
      apply batch_crashed; try assumption; [lia|constructor| |reflexivity].
      now rewrite Nat.add_0_r.
Qed.

End Loop.

(** ** Resolving a selected id *)

Lemma lookup_fold_some (v : option Z) (l : list CaptureImage) :
  forall acc c,
    fold_left (fun a c => if strict_eq (id c) v then Some c else a) l acc
    = Some c ->
    acc = Some c \/ strict_eq (id c) v = true.
Proof.
  induction l as [|y l IH]; simpl; intros acc c H; [now left|].
  apply IH in H. destruct H as [H|H]; [|now right].
  destruct (strict_eq (id y) v) eqn:E; [|now left].
  injection H as <-. now right.
Qed.

Lemma lookup_capture_id (s : State) (v : option Z) (c : CaptureImage) :
  lookup_capture s v = Some c -> v = Some (id c).
Proof.
  intros H. apply lookup_fold_some in H. destruct H as [H|H]; [discriminate|].
  destruct v as [m|]; simpl in H; [|discriminate].
  apply Z.eqb_eq in H. now rewrite H.
Qed.

Lemma lookup_fold_found (x : Z) (l : list CaptureImage) :
  forall acc,
    (acc <> None \/ In x (map id l)) ->
    fold_left (fun a c => if strict_eq (id c) (Some x) then Some c else a) l acc
    <> None.
Proof.
  induction l as [|y l IH]; simpl; intros acc H.
  - destruct H as [H|[]]. exact H.
  - apply IH. destruct (Z.eqb_spec (id y) x) as [E|E].
    + left. discriminate.
    + destruct H as [H|[H|H]]; [now left|contradiction|now right].
Qed.

Lemma lookup_capture_found (s : State) (x : Z) :
  In x (map id (captureImages s)) -> lookup_capture s (Some x) <> None.
Proof. intros H. apply lookup_fold_found. now right. Qed.

Lemma on_page_resolved (s : State) (m : nat) :
  selection_on_page s ->
  (m < List.length (captureImagesSelected s))%nat ->
  ~ unresolved s m.
Proof.
  intros Hs Hm. unfold unresolved.
  destruct (nth_error (captureImagesSelected s) m) as [x|] eqn:Ex;
    [|apply nth_error_None in Ex; lia].
  apply lookup_capture_found, Hs. eapply nth_error_In, Ex.
Qed.

Lemma is_verdict_request (a : ApproveAction) (x : Z) :
  api.is_verdict (verdict_request a x) = true.
Proof. unfold verdict_request. now destruct (isApproved a). Qed.

Lemma is_item_call_verdict (a : ApproveAction) (x : Z) :
  api.is_item_call (verdict_request a x) = true.
Proof. unfold verdict_request. now destruct (isApproved a). Qed.

Lemma approve_events_progress (t : list event) :
  Forall approve_event t -> Forall progress_event t.
Proof.
  apply Forall_impl. intros e. destruct e; simpl; auto.
Qed.

Section ApproveRuns.

Variable backend : Backend.
Variable s : State.

(** An iteration of the loop of [approveAll] with an action. *)
Lemma approveAll_item_runs (a : ApproveAction) (i : nat) (h : list event) :
  (i < List.length (captureImagesSelected s))%nat ->
  item_run approve_event api.is_verdict (expected_verdict s a i)
    (percent (S i) (List.length (captureImagesSelected s)))
    (unresolved s i) h
    (approveAll_item backend s (Some a)
       (List.length (captureImagesSelected s)) i h).
Proof.
  intros Hi. unfold approveAll_item, expected_verdict, unresolved.
  destruct (nth_error (captureImagesSelected s) i) as [x|] eqn:Ex;
    [|apply nth_error_None in Ex; lia].
  rewrite (nth_error_nth _ _ 0 Ex).
  destruct (lookup_capture s (Some x)) as [c|] eqn:El.
  - apply lookup_capture_id in El. injection El as ->.
    unfold bind.
    pose proof (approve_runs backend a (id c) h) as R.
    pose proof (is_item_call_verdict a (id c)) as Hv.
    destruct (approve backend (Some a) (id c) h) as [ra ha].
    inversion R as [t Ht E|E|l Ht E]; clear R.
    + unfold setApproveAllComplete, emit. rewrite <- app_assoc.
      change (h ++ (Call (verdict_request a (id c)) true :: t)
                ++ [SetApproveAllComplete
                      (percent (S i) (List.length (captureImagesSelected s)))])
        with (h ++ (Call (verdict_request a (id c)) true
                      :: t ++ [SetApproveAllComplete
                      (percent (S i) (List.length (captureImagesSelected s)))])).
      apply item_done.
      * destruct Ht as [[_ ->]|(l & _ & ->)]; repeat constructor; exact Hv.
      * destruct Ht as [[_ ->]|(l & _ & ->)]; repeat constructor.
      * destruct Ht as [[_ ->]|(l & _ & ->)]; reflexivity.
      * destruct Ht as [[_ ->]|(l & _ & ->)];
          unfold key_requests; simpl; now rewrite is_verdict_request.
    + apply (item_rejected _ _ _ _ _ _ []).
      * repeat constructor; exact Hv.
      * constructor.
      * reflexivity.
      * unfold key_requests; simpl; now rewrite is_verdict_request.
    + apply (item_rejected _ _ _ _ _ _ [Call (verdict_request a (id c)) true]).
      * repeat constructor; exact Hv.
      * repeat constructor.
      * reflexivity.
      * unfold key_requests; simpl; now rewrite is_verdict_request.
  - apply item_crashed; [reflexivity|discriminate].
Qed.

(** The loop of [approveAll] with an action. *)
Lemma approveAll_batch_runs (a : ApproveAction) (h : list event) :
  exists r t m,
    approveAll_batch backend s (Some a) h = (r, h ++ t)
    /\ Forall approve_event t
    /\ progress t
       = map (fun j => percent j (List.length (captureImagesSelected s)))
             (seq 1 m)
    /\ batch_run api.is_verdict (expected_verdict s a) (unresolved s) 0
         (List.length (captureImagesSelected s)) r t m.
Proof.
  unfold approveAll_batch.
  apply for_range_runs with (crashes := unresolved s); [|simpl; lia].
  intros i h' Hi. now apply approveAll_item_runs.
Qed.

(** Without an action the loop throws at its first iteration, before any
    call or write. *)
Lemma approveAll_batch_no_action (h : list event) :
  captureImagesSelected s <> [] ->
  exists e,
    approveAll_batch backend s None h = (Threw e, h)
    /\ forall r0, e <> Rejected r0.
Proof.
  intros Hne. unfold approveAll_batch.
  destruct (captureImagesSelected s) as [|x sel] eqn:Es; [contradiction|].
  simpl. unfold bind, approveAll_item. rewrite Es. simpl.
  destruct (lookup_capture s (Some x)) as [c|]; simpl.
  - eexists. split; [reflexivity|discriminate].
  - eexists. split; [reflexivity|discriminate].
Qed.

End ApproveRuns.

(** ** Loading a page *)

Section LoadRuns.

Variable backend : Backend.
Variable s : State.

Lemma loadCaptureImages_run (signal : option nat) (h : list event) :
  loadCaptureImages backend s signal h
  = if isLoading s then (Returned (Some true), h)
    else if resolves backend (requests h) (pageParams s signal)
         then (Returned None,
               h ++ [SetIsLoading true; Call (pageParams s signal) true;
                     SetCaptureImages
                       (page_of backend (requests h) (pageParams s signal));
                     SetIsLoading false])
         else (Threw (Rejected (pageParams s signal)),
               h ++ [SetIsLoading true; Call (pageParams s signal) false]).
Proof.
  unfold loadCaptureImages. destruct (isLoading s); [reflexivity|].
  unfold bind, setIsLoading, setCaptureImages, emit, call_with, ret.
  rewrite requests_app. simpl. rewrite app_nil_r.
  destruct (resolves backend (requests h) (pageParams s signal));
    repeat rewrite <- app_assoc; reflexivity.
Qed.

(** [approveAll] in terms of the outcome of its loop. *)
Lemma approveAll_from_batch (act : option ApproveAction)
  (r : result unit) (t : list event) :
  approveAll_batch backend s act approveAll_prologue
  = (r, approveAll_prologue ++ t) ->
  match r with
  | Returned _ =>
      exists tl res,
        approveAll backend s act []
        = (res, approveAll_prologue ++ t
                ++ [SetCaptureImagesUndo (undo_snapshot s); SetIsLoading false]
                ++ tl)
        /\ approveAll_tail s tl res
  | Threw _ =>
      approveAll backend s act []
      = (Returned false,
         approveAll_prologue ++ t
         ++ [SetIsLoading false; SetIsApproveAllProcessing false])
  end.
Proof.
  intros E.
  assert (E0 : approveAll backend s act []
          = match approveAll_batch backend s act approveAll_prologue with
            | (Returned _, h1) =>
                match loadCaptureImages backend s None
                        (h1 ++ [SetCaptureImagesUndo (undo_snapshot s);
                                SetIsLoading false]) with
                | (Returned _, h3) => (Returned true, h3 ++ approveAll_epilogue)
                | (Threw e, h3) => (Threw e, h3)
                end
            | (Threw _, h1) =>
                (Returned false,
                 h1 ++ [SetIsLoading false; SetIsApproveAllProcessing false])
            end).
  { unfold approveAll, bind, try_catch, setIsLoading,
      setIsApproveAllProcessing, setCaptureImagesUndo, emit, ret. simpl.
    change [SetIsLoading true; SetIsApproveAllProcessing true]
      with approveAll_prologue.
    destruct (approveAll_batch backend s act approveAll_prologue)
      as [[u|e] h1].
    - rewrite <- app_assoc. simpl.
      destruct (loadCaptureImages backend s None
                  (h1 ++ [SetCaptureImagesUndo (undo_snapshot s);
                          SetIsLoading false])) as [[v|e] h3];
        [|reflexivity].
      unfold resetSelection, setApproveAllComplete, setInvalidateCaptureCount,
        setCaptureImagesSelected, setCaptureImageAnchor, bind, emit.
      repeat rewrite <- app_assoc. reflexivity.
    - repeat rewrite <- app_assoc. reflexivity. }
  rewrite E0, E. destruct r as [u|e].
  - rewrite loadCaptureImages_run. destruct (isLoading s) eqn:El.
    + exists approveAll_epilogue, (Returned true).
      split; [now repeat rewrite <- app_assoc|now apply reload_skipped].
    + destruct (resolves backend _ (pageParams s None)).
      * eexists _, (Returned true).
        split; [repeat rewrite <- app_assoc; reflexivity|].
        now apply reload_done.
      * eexists _, _.
        split; [repeat rewrite <- app_assoc; reflexivity|].
        now apply reload_rejected.
  - now rewrite <- app_assoc.
Qed.

End LoadRuns.

Lemma approveAll_batch_summary (backend : Backend) (s : State)
  (act : option ApproveAction) (h : list event) :
  exists r t m,
    approveAll_batch backend s act h = (r, h ++ t)
    /\ Forall progress_event t
    /\ progress t
       = map (fun j => percent j (List.length (captureImagesSelected s)))
             (seq 1 m)
    /\ match r with
       | Returned _ =>
           m = List.length (captureImagesSelected s) /\ all_resolved t
       | Threw _ => (m < List.length (captureImagesSelected s))%nat
       end.
Proof.
  destruct act as [a|].
  - destruct (approveAll_batch_runs backend s a h) as (r & t & m & E & Hg & Hp & Hb).
    exists r, t, m. split; [assumption|].
    split; [now apply approve_events_progress|]. split; [assumption|].
    destruct Hb; auto.
  - destruct (captureImagesSelected s) as [|x sel] eqn:Es.
    + exists (Returned tt), [], O. unfold approveAll_batch. rewrite Es. simpl.
      unfold ret. rewrite app_nil_r. repeat split; constructor.
    + destruct (approveAll_batch_no_action backend s h) as (e & E & _);
        [rewrite Es; discriminate|].
      exists (Threw e), [], O. rewrite app_nil_r.
      split; [assumption|]. split; [constructor|]. split; [reflexivity|].
      simpl. lia.
Qed.

(** ** Claims on the page loader *)

(** C9.  A call of [loadCaptureImages] from a render whose [isLoading] is
    true returns [true] and adds nothing to the trace: no request, no
    write (so the page is as it was), nothing left pending.  From a
    render whose [isLoading] is false it sets [isLoading] to true, sends
    the page request with [skip = pageSize * currentPage] and
    [rowsPerPage = pageSize], and, the request resolved, writes the
    result over the page and sets [isLoading] to false. *)
Theorem loadCaptureImages_guard (backend : Backend) (s : State)
  (signal : option nat) (h : list event) :
  let p := api.getCaptureImages (pageSize s * currentPage s) (pageSize s)
             (filter s) signal in
  let page := page_of backend (requests h) p in
  let loaded := [SetIsLoading true; Call p true; SetCaptureImages page;
                 SetIsLoading false] in
  (isLoading s = true ->
   loadCaptureImages backend s signal h = (Returned (Some true), h)
   /\ next_state s (loadCaptureImages backend s signal) = s
   /\ calls (trace_of (loadCaptureImages backend s signal)) = [])
  /\ (isLoading s = false ->
      resolves backend (requests h) p = true ->
      loadCaptureImages backend s signal h = (Returned None, h ++ loaded)
      /\ forall st,
           captureImages (run_state st loaded) = page
           /\ isLoading (run_state st loaded) = false).
Proof.
  intros p page loaded. split.
  - intros Hl. unfold next_state, trace_of.
    rewrite !loadCaptureImages_run, Hl. now repeat split.
  - intros Hl Hr. rewrite loadCaptureImages_run, Hl.
    change (pageParams s signal) with p. rewrite Hr. now repeat split.
Qed.

(** A load asked while one is under way, and a load on an idle store. *)
Lemma loadCaptureImages_guard_witness :
  loadCaptureImages server_ok loading (Some 1%nat) []
  = (Returned (Some true), [])
  /\ loadCaptureImages server_ok page_1_to_5 (Some 1%nat) []
     = (Returned None,
        [SetIsLoading true;
         Call (api.getCaptureImages 0 24 (mkFilter false true) (Some 1%nat))
              true;
         SetCaptureImages (map capture [7; 8]); SetIsLoading false]).
Proof.
  split.
  - apply (loadCaptureImages_guard server_ok loading (Some 1%nat) []).
    reflexivity.
  - apply (loadCaptureImages_guard server_ok page_1_to_5 (Some 1%nat) []);
      reflexivity.
Defined.

(** ** Claims on the batch approve *)

(** C6 as stated fails: with nothing selected the loop does not run,
    [approve] is never reached, and [approveAll] without an action takes
    the success path and returns [true]. *)
Lemma approveAll_without_action_empty_selection :
  captureImagesSelected page_1_to_5 = []
  /\ result_of (approveAll server_ok page_1_to_5 None) = Returned true.
Proof. split; reflexivity. Qed.

(** The captures of the undo snapshot are those of the page whose id is
    selected, in the order of the page. *)
Lemma undo_snapshot_spec (s : State) (c : CaptureImage) :
  In c (undo_snapshot s)
  <-> In c (captureImages s) /\ In (id c) (captureImagesSelected s).
Proof.
  unfold undo_snapshot. rewrite filter_In, existsb_exists.
  split; intros [Hc Hs]; split; try assumption.
  - destruct Hs as (x & Hx & E). apply Z.eqb_eq in E. now subst.
  - exists (id c). split; [assumption|apply Z.eqb_refl].
Qed.

(** C1.  When [approveAll] returns [true] (its loop met no exception and
    the reload did not throw), every call it made resolved and the next
    state has the snapshot taken before the batch as undo list (the
    captures of the page whose id was selected), an empty selection, no
    anchor, [isApproveAllProcessing] false, [approveAllComplete] 0 and
    [invalidateCaptureCount] true.  It does return [true] when it has an
    action, every selected id is on the page and no call is rejected. *)
Theorem approveAll_success (backend : Backend) (s : State)
  (act : option ApproveAction) :
  let run := approveAll backend s act in
  let s' := next_state s run in
  (result_of run = Returned true ->
   all_resolved (trace_of run)
   /\ captureImagesUndo s' = undo_snapshot s
   /\ (forall c, In c (captureImagesUndo s')
                 <-> In c (captureImages s)
                     /\ In (id c) (captureImagesSelected s))
   /\ captureImagesSelected s' = []
   /\ captureImageAnchor s' = None
   /\ isLoading s' = false
   /\ isApproveAllProcessing s' = false
   /\ approveAllComplete s' = 0%float
   /\ invalidateCaptureCount s' = true)
  /\ (act <> None -> selection_on_page s ->
      all_resolved (trace_of run) ->
      result_of run = Returned true).
Proof.
  cbv zeta. unfold result_of, next_state, trace_of. split.
  - destruct (approveAll_batch_summary backend s act approveAll_prologue)
      as (r & t & m & E & Hg & _ & Hr).
    apply approveAll_from_batch in E. destruct r as [u|e].
    + destruct E as (tl & res & E & Htl). rewrite E. cbn [fst snd].
      intros Hres. destruct Hr as [_ Hall].
      assert (Hundo : forall st,
                 captureImagesUndo
                   (run_state st
                      (approveAll_prologue ++ t
                       ++ [SetCaptureImagesUndo (undo_snapshot s);
                           SetIsLoading false] ++ tl))
                 = undo_snapshot s).
      { intros st. rewrite !run_state_app.
        destruct Htl; reflexivity || discriminate Hres. }
      split.
      { apply (proj2 (all_resolved_app approveAll_prologue _)).
        split; [constructor|].
        apply (proj2 (all_resolved_app t _)). split; [assumption|].
        destruct Htl; try discriminate Hres; repeat constructor. }
      split; [apply Hundo|].
      split; [intros c; rewrite Hundo; apply undo_snapshot_spec|].
      rewrite !run_state_app.
      destruct Htl; try discriminate Hres; now repeat split.
    + rewrite E. discriminate.
  - intros Hact Hs. destruct act as [a|]; [clear Hact|contradiction].
    destruct (approveAll_batch_runs backend s a approveAll_prologue)
      as (r & t & m & E & _ & _ & Hb).
    apply approveAll_from_batch in E.
    destruct Hb as [t _ _|t0 r0 m _ _ _|e t m Hm _ Hc _ _].
    + destruct E as (tl & res & E & Htl). rewrite E. cbn [fst snd].
      intros Hall. destruct Htl; try reflexivity.
      exfalso.
      apply (all_resolved_no_failure _ (pageParams s None) Hall).
      rewrite !calls_app, !in_app_iff. simpl. tauto.
    + rewrite E. cbn [fst snd]. intros Hall. exfalso.
      apply (all_resolved_no_failure _ r0 Hall).
      rewrite !calls_app, !in_app_iff. simpl. tauto.
    + exfalso. now apply (on_page_resolved s m Hs Hm).
Qed.

(** The batch approve of the captures 2, 4 and 5 of the page 1 to 5. *)
Lemma approveAll_success_witness :
  let s' := next_state selected_2_4_5
              (approveAll server_ok selected_2_4_5 (Some approve_action)) in
  captureImagesUndo s' = map capture [2; 4; 5]
  /\ captureImagesSelected s' = []
  /\ captureImageAnchor s' = None.
Proof.
  assert (H : result_of
                (approveAll server_ok selected_2_4_5 (Some approve_action))
              = Returned true) by reflexivity.
  destruct (approveAll_success server_ok selected_2_4_5
              (Some approve_action)) as [Hok _].
  destruct (Hok H) as (_ & Hu & _ & Hs & Ha & _).
  split; [exact Hu|]. split; [exact Hs|exact Ha].
Defined.

(** ** Calls of a batch approve *)

Lemma map_nth_seq {A B : Type} (f : A -> B) (d : A) (l : list A) :
  forall k, (k <= List.length l)%nat ->
  map (fun i => f (nth i l d)) (seq 0 k) = map f (firstn k l).
Proof.
  induction l as [|x l IH]; intros k Hk.
  - simpl in Hk. assert (k = O) by lia. now subst.
  - destruct k as [|k]; [reflexivity|].
    simpl in Hk. simpl. rewrite <- seq_shift, map_map. f_equal.
    apply IH. lia.
Qed.

Lemma verdicts_resolved (t : list event) :
  all_resolved t -> Forall (fun c => snd c = true) (verdicts t).
Proof.
  unfold all_resolved, verdicts. rewrite !Forall_forall.
  intros H c Hc. apply filter_In in Hc. apply H. tauto.
Qed.

(** In a list of calls whose only failure can be a last element, a failed
    call at position [k] is the last one. *)
Lemma failed_call_is_last (l tail : list (api.request * bool))
  (k : nat) (r : api.request) :
  Forall (fun c => snd c = true) l ->
  (List.length tail <= 1)%nat ->
  nth_error (l ++ tail) k = Some (r, false) ->
  List.length (l ++ tail) = S k.
Proof.
  intros Hl Ht Hk.
  destruct (Nat.lt_ge_cases k (List.length l)) as [Hlt|Hge].
  - rewrite nth_error_app1 in Hk by assumption.
    apply nth_error_In in Hk. rewrite Forall_forall in Hl.
    specialize (Hl _ Hk). discriminate Hl.
  - rewrite nth_error_app2 in Hk by assumption.
    assert (Hlen : (k - List.length l < List.length tail)%nat).
    { apply nth_error_Some. rewrite Hk. discriminate. }
    rewrite length_app. lia.
Qed.

Lemma expected_verdicts_firstn (s : State) (a : ApproveAction) (k : nat) :
  (k <= List.length (captureImagesSelected s))%nat ->
  map (expected_verdict s a) (seq 0 k)
  = map (verdict_request a) (firstn k (captureImagesSelected s)).
Proof. intros Hk. unfold expected_verdict. now apply map_nth_seq. Qed.

(** The reload and the writes that end a batch approve send no approve,
    reject or tag request. *)
Lemma approveAll_tail_calls (s : State) (tl : list event) (res : result bool) :
  approveAll_tail s tl res ->
  verdicts tl = []
  /\ forall r ok, In (r, ok) (calls tl) -> api.is_item_call r = false.
Proof.
  intros H. destruct H; (split; [reflexivity|]); simpl; intros r ok Hin.
  - contradiction.
  - destruct Hin as [E|[]]. now injection E as <- _.
  - destruct Hin as [E|[]]. now injection E as <- _.
Qed.

(** The calls of a batch approve with an action, whatever the selection.
    The approve and reject requests are those of a prefix of the
    selection, in its order.  Unless [approveAll] takes its failure path
    there are exactly [n] of them, all resolved; so it is, with every
    selected id on the page, when no approve, reject or tag call is
    rejected.  A rejected approve, reject or tag call is the last event
    of the loop: [approveAll] resets both flags and returns [false], and
    the undo list, the invalidation flag and the page are as they were.
    When the [k]-th approve or reject call is the rejected one, exactly
    [k] were made, for the first [k] selected ids. *)
Lemma approveAll_calls (backend : Backend) (s : State) (a : ApproveAction) :
  let sel := captureImagesSelected s in
  let n := List.length sel in
  let run := approveAll backend s (Some a) in
  let t := trace_of run in
  let s' := next_state s run in
  (exists k, (k <= n)%nat
             /\ map fst (verdicts t) = map (verdict_request a) (firstn k sel))
  /\ (result_of run <> Returned false ->
      map fst (verdicts t) = map (verdict_request a) sel
      /\ List.length (verdicts t) = n
      /\ Forall (fun c => snd c = true) (verdicts t))
  /\ (selection_on_page s ->
      (forall r, api.is_item_call r = true -> ~ In (r, false) (calls t)) ->
      map fst (verdicts t) = map (verdict_request a) sel
      /\ List.length (verdicts t) = n)
  /\ (forall r, api.is_item_call r = true -> In (r, false) (calls t) ->
      result_of run = Returned false
      /\ (exists t0,
            t = t0 ++ [Call r false; SetIsLoading false;
                       SetIsApproveAllProcessing false]
            /\ all_resolved t0)
      /\ isLoading s' = false
      /\ isApproveAllProcessing s' = false
      /\ captureImagesUndo s' = captureImagesUndo s
      /\ invalidateCaptureCount s' = invalidateCaptureCount s
      /\ captureImages s' = captureImages s)
  /\ (forall k r, (1 <= k)%nat ->
      nth_error (verdicts t) (k - 1) = Some (r, false) ->
      List.length (verdicts t) = k
      /\ (k <= n)%nat
      /\ map fst (verdicts t) = map (verdict_request a) (firstn k sel))
  /\ (forall k r, (1 <= k)%nat -> api.is_item_call r = true ->
      nth_error (calls t) (k - 1) = Some (r, false) ->
      List.length (calls t) = k).
Proof.
  intros sel n run t s'. subst run t s'.
  unfold result_of, next_state, trace_of.
  destruct (approveAll_batch_runs backend s a approveAll_prologue)
    as (r & t & m & E & Hg & _ & Hb).
  apply approveAll_from_batch in E.
  destruct Hb as [t Hall Ek|t0 r0 m Hm Hall Ek|e t m Hm Hall Hc _ Ek].
  - (* the loop completed *)
    destruct E as (tl & res & E & Htl). rewrite E. cbn [fst snd].
    destruct (approveAll_tail_calls _ _ _ Htl) as [Hvt Hct].
    assert (Ev : verdicts
                   (approveAll_prologue ++ t
                    ++ [SetCaptureImagesUndo (undo_snapshot s);
                        SetIsLoading false] ++ tl)
                 = verdicts t).
    { rewrite !verdicts_app, Hvt. simpl. now rewrite app_nil_r. }
    rewrite Ev.
    assert (Ereq : map fst (verdicts t) = map (verdict_request a) sel).
    { rewrite <- key_requests_verdicts, Ek.
      rewrite expected_verdicts_firstn by reflexivity.
      unfold sel. now rewrite firstn_all. }
    assert (Elen : List.length (verdicts t) = n).
    { rewrite <- (length_map fst), Ereq, length_map. reflexivity. }
    pose proof (verdicts_resolved t Hall) as Hv.
    split; [exists n; split; [lia|]; unfold n, sel; now rewrite firstn_all|].
    split; [intros _; now repeat split|].
    split; [intros _ _; now split|].
    split.
    { intros r Hr Hin. exfalso.
      rewrite !calls_app, !in_app_iff in Hin. simpl in Hin.
      destruct Hin as [[]|[Hin|[[]|Hin]]].
      - now apply (all_resolved_no_failure t r Hall).
      - specialize (Hct _ _ Hin). congruence. }
    split.
    { intros k r _ Hk. exfalso.
      apply nth_error_In in Hk.
      rewrite Forall_forall in Hv. specialize (Hv _ Hk). discriminate Hv. }
    intros k r _ Hr Hk. exfalso. apply nth_error_In in Hk.
    rewrite !calls_app, !in_app_iff in Hk. simpl in Hk.
    destruct Hk as [[]|[Hin|[[]|Hin]]].
    + now apply (all_resolved_no_failure t r Hall).
    + specialize (Hct _ _ Hin). congruence.
  - (* a call was rejected *)
    rewrite E. cbn [fst snd].
    assert (Ev : verdicts
                   (approveAll_prologue ++ (t0 ++ [Call r0 false])
                    ++ [SetIsLoading false; SetIsApproveAllProcessing false])
                 = verdicts t0 ++ verdicts [Call r0 false]).
    { rewrite !verdicts_app. simpl. now rewrite app_nil_r. }
    assert (Er0 : api.is_item_call r0 = true).
    { apply Forall_app in Hg. destruct Hg as [_ Hg].
      now inversion Hg. }
    assert (Ereq : map fst (verdicts t0 ++ verdicts [Call r0 false])
                   = map (verdict_request a) (firstn (S m) sel)).
    { rewrite <- verdicts_app, <- key_requests_verdicts, Ek.
      apply expected_verdicts_firstn. exact Hm. }
    assert (Elen : List.length (verdicts t0 ++ verdicts [Call r0 false])
                   = S m).
    { rewrite <- (length_map fst), Ereq, length_map, length_firstn.
      unfold sel. lia. }
    rewrite Ev.
    split; [exists (S m); split; [exact Hm|exact Ereq]|].
    split; [intros Hnot; now contradiction Hnot|].
    split.
    { intros _ Hno. exfalso. apply (Hno r0 Er0).
      rewrite !calls_app, !in_app_iff. simpl. tauto. }
    split.
    { intros r Hr Hin.
      assert (r = r0) as ->.
      { rewrite !calls_app, !in_app_iff in Hin. simpl in Hin.
        destruct Hin as [[]|[[Hin|[Hin|[]]]|[]]].
        - now apply all_resolved_no_failure in Hin.
        - now injection Hin. }
      split; [reflexivity|]. split.
      { exists (approveAll_prologue ++ t0).
        split; [now rewrite <- !app_assoc|].
        apply (proj2 (all_resolved_app approveAll_prologue _)).
        split; [constructor|assumption]. }
      rewrite !run_state_app.
      pose proof (approve_events_progress _ Hg) as Hp.
      destruct (progress_events_frame _ (run_state s approveAll_prologue) Hp)
        as (Hci & Hcu & _ & _ & _ & _ & Hiv).
      rewrite run_state_app in Hci, Hcu, Hiv.
      cbn [run_state fold_left apply_event isLoading isApproveAllProcessing
           captureImagesUndo invalidateCaptureCount captureImages] in *.
      repeat split; assumption. }
    split.
    { intros k r Hk Hnth.
      assert (El : List.length (verdicts t0 ++ verdicts [Call r0 false]) = k).
      { assert (El : List.length (verdicts t0 ++ verdicts [Call r0 false])
                     = S (k - 1)); [|lia].
        apply failed_call_is_last with (r := r);
          [now apply verdicts_resolved| |exact Hnth].
        unfold verdicts. simpl. destruct (api.is_verdict r0); simpl; lia. }
      split; [exact El|].
      assert (k = S m) as -> by congruence.
      split; [exact Hm|exact Ereq]. }
    intros k r Hk _ Hnth.
    assert (Ec : calls (approveAll_prologue ++ (t0 ++ [Call r0 false])
                        ++ [SetIsLoading false;
                            SetIsApproveAllProcessing false])
                 = calls t0 ++ [(r0, false)]).
    { rewrite !calls_app. simpl. now rewrite app_nil_r. }
    rewrite Ec in *.
    assert (El : List.length (calls t0 ++ [(r0, false)]) = S (k - 1));
      [|lia].
    apply failed_call_is_last with (r := r);
      [exact Hall|simpl; lia|exact Hnth].
  - (* no capture for a selected id *)
    rewrite E. cbn [fst snd].
    assert (Ev : verdicts
                   (approveAll_prologue ++ t
                    ++ [SetIsLoading false; SetIsApproveAllProcessing false])
                 = verdicts t).
    { rewrite !verdicts_app. simpl. now rewrite app_nil_r. }
    rewrite Ev.
    split.
    { exists m. split; [unfold n, sel; lia|].
      rewrite <- key_requests_verdicts, Ek.
      apply expected_verdicts_firstn. lia. }
    split; [intros Hnot; now contradiction Hnot|].
    split; [intros Hs; exfalso; now apply (on_page_resolved s m Hs Hm)|].
    split.
    { intros r _ Hin. exfalso.
      rewrite !calls_app, !in_app_iff in Hin. simpl in Hin.
      destruct Hin as [[]|[Hin|[]]].
      now apply (all_resolved_no_failure t r Hall). }
    split.
    { intros k r _ Hk. exfalso.
      apply nth_error_In in Hk.
      pose proof (verdicts_resolved t Hall) as Hv.
      rewrite Forall_forall in Hv. specialize (Hv _ Hk). discriminate Hv. }
    intros k r _ _ Hk. exfalso. apply nth_error_In in Hk.
    rewrite !calls_app, !in_app_iff in Hk. simpl in Hk.
    destruct Hk as [[]|[Hin|[]]].
    now apply (all_resolved_no_failure t r Hall).
Qed.


(** The selection 2, 4, 5 with the second request rejected: two approve
    calls, for 2 and for 4, and the result [false]. *)
Lemma approveAll_calls_example :
  let run := approveAll (server_failing_at 1) selected_2_4_5
               (Some approve_action) in
  map fst (verdicts (trace_of run))
  = map (verdict_request approve_action) [2; 4]
  /\ result_of run = Returned false
  /\ isLoading (next_state selected_2_4_5 run) = false.
Proof.
  destruct (approveAll_calls (server_failing_at 1) selected_2_4_5
              approve_action) as (_ & _ & _ & Hfail & Hk & _).
  assert (H12 : (1 <= 2)%nat) by lia.
  destruct (Hk 2%nat (verdict_request approve_action 4) H12 eq_refl)
    as (_ & _ & Hreq).
  destruct (Hfail (verdict_request approve_action 4) eq_refl)
    as (Hres & _ & Hl & _).
  { simpl. right. now left. }
  split; [exact Hreq|]. split; [exact Hres|exact Hl].
Defined.

(** A rejection with tags: the reject call of the first item resolves,
    its tag call is rejected; one reject call was made and the batch
    stops. *)
Lemma approveAll_rejected_tag_call :
  let run := approveAll (server_failing_at 1) selected_2_4_5
               (Some reject_action_with_tags) in
  calls (trace_of run)
  = [(api.rejectCaptureImage 2 "blurry", true);
     (api.createCaptureTags 2 ["dry"%string], false)]
  /\ progress (trace_of run) = []
  /\ result_of run = Returned false.
Proof. repeat split. Qed.

(** ** The batch undo *)

Lemma page_writes_app (t1 t2 : list event) :
  page_writes (t1 ++ t2) = page_writes t1 ++ page_writes t2.
Proof. unfold page_writes. apply flat_map_app. Qed.

Lemma undo_writes_app (t1 t2 : list event) :
  undo_writes (t1 ++ t2) = undo_writes t1 ++ undo_writes t2.
Proof. unfold undo_writes. apply flat_map_app. Qed.

(** The last write of a cell wins. *)
Lemma run_state_page (t : list event) (st : State) :
  captureImages (run_state st t) = last (page_writes t) (captureImages st).
Proof.
  induction t as [|e t IH] using rev_ind; [reflexivity|].
  rewrite run_state_app, page_writes_app. simpl.
  destruct e; simpl; rewrite ?app_nil_r; try exact IH.
  now rewrite last_last.
Qed.

Lemma run_state_undo (t : list event) (st : State) :
  captureImagesUndo (run_state st t)
  = last (undo_writes t) (captureImagesUndo st).
Proof.
  induction t as [|e t IH] using rev_ind; [reflexivity|].
  rewrite run_state_app, undo_writes_app. simpl.
  destruct e; simpl; rewrite ?app_nil_r; try exact IH.
  now rewrite last_last.
Qed.

Lemma last_repeat {A : Type} (x d : A) (n : nat) :
  last (repeat x (S n)) d = x.
Proof.
  induction n as [|n IH]; [reflexivity|].
  change (repeat x (S (S n))) with (x :: repeat x (S n)).
  change (last (x :: repeat x (S n)) d) with (last (repeat x (S n)) d).
  exact IH.
Qed.

Lemma fold_keeps_first (l : list CaptureImage) (first : CaptureImage) :
  fold_left (fun a c => if strict_eq (id c) None then c else a) l first
  = first.
Proof. induction l as [|y l IH]; simpl; [reflexivity|exact IH]. Qed.

Lemma filter_keeps_all (l : list CaptureImage) :
  List.filter (fun capture => negb (strict_eq (id capture) None)) l = l.
Proof.
  induction l as [|y l IH]; simpl; [reflexivity|]. f_equal. exact IH.
Qed.

Section UndoRuns.

Variable backend : Backend.
Variable s : State.

(** [undoedCaptureImage(id)] on a snapshot with an undo list that is not
    empty: no entry has the id [undefined], so the reduction keeps the
    first entry and the filter keeps them all. *)
Lemma undoedCaptureImage_run (x : Z) (h : list event) :
  captureImagesUndo s <> [] ->
  undoedCaptureImage s (Some x) None h
  = (Returned tt,
     h ++ [SetCaptureImages (restored_page s);
           SetCaptureImagesUndo (captureImagesUndo s)]).
Proof.
  intros Hne. unfold undoedCaptureImage, restored_page.
  destruct (captureImagesUndo s) as [|first rest] eqn:Eu; [contradiction|].
  rewrite fold_keeps_first, filter_keeps_all.
  unfold bind, setCaptureImages, setCaptureImagesUndo, emit.
  now rewrite <- app_assoc.
Qed.

Lemma undoAll_item_run (i : nat) (h : list event) :
  (i < List.length (captureImagesUndo s))%nat ->
  undoAll_item backend s (List.length (captureImagesUndo s)) i h
  = if resolves backend (requests h) (expected_undo s i)
    then (Returned tt, h ++ undo_item_events s i)
    else (Threw (Rejected (expected_undo s i)),
          h ++ [Call (expected_undo s i) false]).
Proof.
  intros Hi. unfold undoAll_item, expected_undo.
  destruct (nth_error (captureImagesUndo s) i) as [c|] eqn:Ec;
    [|apply nth_error_None in Ec; lia].
  rewrite (nth_error_nth _ _ (mkCapture 0 "") Ec).
  assert (Hne : captureImagesUndo s <> []).
  { intros E. rewrite E in Hi. simpl in Hi. lia. }
  unfold undoCaptureImage, bind.
  destruct (resolves backend (requests h) (api.undoCaptureImage (id c)))
    eqn:Hr.
  - rewrite (call_resolved _ _ _ Hr), (undoedCaptureImage_run _ _ Hne).
    unfold ret, setApproveAllComplete, setInvalidateCaptureCount, emit.
    unfold undo_item_events, expected_undo.
    rewrite (nth_error_nth _ _ (mkCapture 0 "") Ec).
    now rewrite <- !app_assoc.
  - now rewrite (call_rejected _ _ _ Hr).
Qed.

Lemma undoAll_item_runs (i : nat) (h : list event) :
  (i < List.length (captureImagesUndo s))%nat ->
  item_run (fun _ => True) (fun _ => true) (expected_undo s i)
    (percent (S i) (List.length (captureImagesUndo s))) False h
    (undoAll_item backend s (List.length (captureImagesUndo s)) i h).
Proof.
  intros Hi. rewrite (undoAll_item_run i h Hi).
  destruct (resolves backend (requests h) (expected_undo s i)).
  - apply item_done; try reflexivity; repeat constructor.
  - apply (item_rejected _ _ _ _ _ _ []); try reflexivity; repeat constructor.
Qed.

(** The loop of [undoAll]. *)
Lemma undoAll_batch_runs (h : list event) :
  exists r t m,
    undoAll_batch backend s h = (r, h ++ t)
    /\ progress t
       = map (fun j => percent j (List.length (captureImagesUndo s)))
             (seq 1 m)
    /\ batch_run (fun _ => true) (expected_undo s) (fun _ => False) 0
         (List.length (captureImagesUndo s)) r t m.
Proof.
  unfold undoAll_batch.
  destruct (for_range_runs (undoAll_item backend s
                              (List.length (captureImagesUndo s)))
              (List.length (captureImagesUndo s)) (fun _ => True)
              (fun _ => true) (expected_undo s) (fun _ => False)
              undoAll_item_runs (List.length (captureImagesUndo s)) O h)
    as (r & t & m & E & _ & Hp & Hb); [simpl; lia|].
  now exists r, t, m.
Qed.

(** Every completed iteration writes the same page and the same undo
    list. *)
Lemma undoAll_loop_writes (n : nat) : forall i h,
  (i + n <= List.length (captureImagesUndo s))%nat ->
  exists r t,
    for_range n i (undoAll_item backend s (List.length (captureImagesUndo s)))
      h = (r, h ++ t)
    /\ page_writes t
       = repeat (restored_page s) (List.length (progress t))
    /\ undo_writes t
       = repeat (captureImagesUndo s) (List.length (progress t)).
Proof.
  induction n as [|n IH]; intros i h Hle.
  - exists (Returned tt), []. simpl. unfold ret. now rewrite app_nil_r.
  - simpl. unfold bind. rewrite undoAll_item_run by lia.
    destruct (resolves backend (requests h) (expected_undo s i)).
    + destruct (IH (S i) (h ++ undo_item_events s i)) as (r & t & E & Hp & Hu);
        [lia|].
      exists r, (undo_item_events s i ++ t).
      rewrite E, <- app_assoc. split; [reflexivity|].
      rewrite page_writes_app, undo_writes_app, progress_app, Hp, Hu.
      now split.
    + eexists _, _. split; [reflexivity|]. now split.
Qed.

(** [undoAll] in terms of the outcome of its loop. *)
Lemma undoAll_from_batch (r : result unit) (t : list event) :
  undoAll_batch backend s undoAll_prologue = (r, undoAll_prologue ++ t) ->
  undoAll backend s []
  = match r with
    | Returned _ => (Returned true, undoAll_prologue ++ t ++ undoAll_epilogue)
    | Threw _ => (Returned false, undoAll_prologue ++ t ++ undoAll_catch)
    end.
Proof.
  intros E.
  unfold undoAll, bind, try_catch, setIsLoading, setIsApproveAllProcessing,
    emit, ret. simpl.
  change [SetIsLoading true; SetIsApproveAllProcessing true]
    with undoAll_prologue.
  rewrite E. destruct r as [u|e].
  - unfold resetSelection, setApproveAllComplete, setInvalidateCaptureCount,
      setCaptureImagesSelected, setCaptureImageAnchor, bind, emit.
    now rewrite <- !app_assoc.
  - now rewrite <- !app_assoc.
Qed.

End UndoRuns.

(** ** Claims on the batch undo *)

(** C5.  When a request of [undoAll] is rejected, it is the last request
    made (the requests are those of a proper prefix of the undo list plus
    the rejected one), the [catch] block writes [true] to [isLoading] and
    to [isApproveAllProcessing], and [undoAll] returns [false]: both
    flags are true in the next state.  When an approve, reject or tag
    request of [approveAll] is rejected, [approveAll] returns [false] and
    both flags are false in the next state. *)
Theorem undoAll_failure_keeps_flags_set (backend : Backend) (s : State) :
  (forall r,
     In (r, false) (calls (trace_of (undoAll backend s))) ->
     result_of (undoAll backend s) = Returned false
     /\ (exists t0 m,
           trace_of (undoAll backend s)
           = t0 ++ [Call r false; SetIsLoading true;
                    SetIsApproveAllProcessing true]
           /\ all_resolved t0
           /\ (m < List.length (captureImagesUndo s))%nat
           /\ requests (trace_of (undoAll backend s))
              = map (expected_undo s) (seq 0 (S m)))
     /\ isLoading (next_state s (undoAll backend s)) = true
     /\ isApproveAllProcessing (next_state s (undoAll backend s)) = true)
  /\ (forall act r,
        api.is_item_call r = true ->
        In (r, false) (calls (trace_of (approveAll backend s act))) ->
        result_of (approveAll backend s act) = Returned false
        /\ isLoading (next_state s (approveAll backend s act)) = false
        /\ isApproveAllProcessing (next_state s (approveAll backend s act))
           = false).
Proof.
  split.
  - intros r. unfold result_of, next_state, trace_of.
    destruct (undoAll_batch_runs backend s undoAll_prologue)
      as (res & t & m & E & _ & Hb).
    apply undoAll_from_batch in E. rewrite E.
    destruct Hb as [t Hall _|t0 r0 m Hm Hall Ek|e t m _ _ [] _ _];
      cbn [fst snd]; intros Hin.
    + exfalso. rewrite !calls_app, !in_app_iff in Hin. simpl in Hin.
      destruct Hin as [[]|[Hin|[]]].
      now apply (all_resolved_no_failure t r Hall).
    + assert (r = r0) as ->.
      { rewrite !calls_app, !in_app_iff in Hin. simpl in Hin.
        destruct Hin as [[]|[[Hin|[Hin|[]]]|[]]].
        - now apply all_resolved_no_failure in Hin.
        - now injection Hin. }
      split; [reflexivity|]. split.
      { exists (undoAll_prologue ++ t0), m.
        split; [now rewrite <- !app_assoc|].
        split; [apply (proj2 (all_resolved_app undoAll_prologue _));
                split; [constructor|assumption]|].
        split; [exact Hm|].
        rewrite <- Ek. unfold key_requests.
        rewrite !requests_app. simpl. rewrite app_nil_r.
        symmetry. apply forallb_filter_id, forallb_forall. reflexivity. }
      rewrite !run_state_app. now split.
  - intros act r Hr. unfold result_of, next_state, trace_of.
    destruct (approveAll_batch_summary backend s act approveAll_prologue)
      as (res & t & m & E & _ & _ & Hres).
    apply approveAll_from_batch in E. destruct res as [u|e].
    + destruct E as (tl & res & E & Htl). rewrite E. cbn [fst snd].
      intros Hin. exfalso. destruct Hres as [_ Hall].
      destruct (approveAll_tail_calls _ _ _ Htl) as [_ Hct].
      rewrite !calls_app, !in_app_iff in Hin. simpl in Hin.
      destruct Hin as [[]|[Hin|[[]|Hin]]].
      * now apply (all_resolved_no_failure t r Hall).
      * specialize (Hct _ _ Hin). congruence.
    + rewrite E. cbn [fst snd]. intros _.
      rewrite !run_state_app. now repeat split.
Qed.

(** The undo list 2, 4 with the second undo request rejected, and the
    selection 2, 4, 5 with the second approve request rejected. *)
Lemma undoAll_failure_keeps_flags_set_witness :
  (result_of (undoAll (server_failing_at 1) undo_2_4) = Returned false
   /\ isLoading (next_state undo_2_4 (undoAll (server_failing_at 1) undo_2_4))
      = true
   /\ isApproveAllProcessing
        (next_state undo_2_4 (undoAll (server_failing_at 1) undo_2_4))
      = true)
  /\ (result_of (approveAll (server_failing_at 1) selected_2_4_5
                   (Some approve_action)) = Returned false
      /\ isLoading
           (next_state selected_2_4_5
              (approveAll (server_failing_at 1) selected_2_4_5
                 (Some approve_action))) = false
      /\ isApproveAllProcessing
           (next_state selected_2_4_5
              (approveAll (server_failing_at 1) selected_2_4_5
                 (Some approve_action))) = false).
Proof.
  destruct (undoAll_failure_keeps_flags_set (server_failing_at 1) undo_2_4)
    as [Hundo _].
  destruct (undoAll_failure_keeps_flags_set (server_failing_at 1)
              selected_2_4_5) as [_ Happrove].
  split.
  - destruct (Hundo (api.undoCaptureImage 4)) as (Hr & _ & Hl & Hp).
    { simpl. right. now left. }
    split; [exact Hr|]. split; [exact Hl|exact Hp].
  - apply (Happrove (Some approve_action) (verdict_request approve_action 4)).
    + reflexivity.
    + simpl. right. now left.
Defined.

(** What a batch undo that returns [true] leaves: the undo list of the
    snapshot, and the page of the snapshot with the first undo entry
    only. *)
Lemma undoAll_success_state (backend : Backend) (s : State)
  (first : CaptureImage) (rest : list CaptureImage) :
  captureImagesUndo s = first :: rest ->
  result_of (undoAll backend s) = Returned true ->
  captureImagesUndo (next_state s (undoAll backend s)) = first :: rest
  /\ captureImages (next_state s (undoAll backend s))
     = sort_by_id (captureImages s ++ [first]).
Proof.
  intros Eu. unfold result_of, next_state, trace_of.
  destruct (undoAll_batch_runs backend s undoAll_prologue)
    as (res & t & m & E & Hp & Hb).
  destruct (undoAll_loop_writes backend s (List.length (captureImagesUndo s))
              O undoAll_prologue) as (res' & t' & E' & Hpw & Huw);
    [simpl; lia|].
  unfold undoAll_batch in E. rewrite E in E'.
  injection E' as <- Et. subst t'.
  fold (undoAll_batch backend s undoAll_prologue) in E.
  apply undoAll_from_batch in E. rewrite E.
  destruct Hb as [t _ _|t0 r0 m _ _ _|e t m _ _ [] _ _]; cbn [fst snd];
    [|discriminate].
  intros _.
  rewrite Hp, length_map, length_seq, Eu in Hpw, Huw.
  rewrite run_state_page, run_state_undo.
  rewrite !page_writes_app, !undo_writes_app, Hpw, Huw.
  cbn [page_writes undo_writes undoAll_prologue undoAll_epilogue flat_map
       app List.length].
  rewrite !app_nil_r, !last_repeat.
  unfold restored_page. rewrite Eu. now split.
Qed.

(** C4, on the code.  The undo list holds 2 and 4 and the page 1 and 3;
    every request resolves and [undoAll] returns [true].  The next state
    still has the whole undo list, and of its two captures only the first
    one, 2, is on the page: [undoedCaptureImage] is declared with the
    parameters [(state, captureId)] and called with the id alone, so it
    looks for the id [undefined], and every iteration works on the lists
    of the render that started the batch. *)
Theorem undoAll_restores_only_first :
  let run := undoAll server_ok undo_2_4 in
  let s' := next_state undo_2_4 run in
  map id (captureImages undo_2_4) = [1; 3]
  /\ map id (captureImagesUndo undo_2_4) = [2; 4]
  /\ result_of run = Returned true
  /\ all_resolved (trace_of run)
  /\ requests (trace_of run)
     = [api.undoCaptureImage 2; api.undoCaptureImage 4]
  /\ map id (captureImagesUndo s') = [2; 4]
  /\ map id (captureImages s') = [1; 2; 3].
Proof. repeat split. repeat constructor. Qed.

(** ** Shift click *)

(** The index [clickCapture] computes for an id that is on the page. *)
Lemma reduce_indexed_spec (target : Z) (l : list CaptureImage) :
  forall i a,
    let r := reduce_indexed (fun a c i => if id c =? target then i else a)
               l i a in
    (r = a /\ ~ In target (map id l))
    \/ (i <= r < i + Z.of_nat (List.length l)
        /\ exists c, nth_error l (Z.to_nat (r - i)) = Some c /\ id c = target).
Proof.
  induction l as [|c l IH]; intros i a; simpl.
  - left. tauto.
  - specialize (IH (i + 1) (if id c =? target then i else a)).
    simpl in IH. destruct IH as [[Er Hnot]|[Hr (c' & Hn & Hc)]].
    + rewrite Er. destruct (Z.eqb_spec (id c) target) as [E|E].
      * right. split; [lia|]. exists c.
        replace (i - i) with 0 by lia. now split.
      * left. split; [reflexivity|]. tauto.
    + right. split; [lia|]. exists c'. split; [|exact Hc].
      set (r := reduce_indexed _ l (i + 1) _) in *.
      replace (Z.to_nat (r - i)) with (S (Z.to_nat (r - (i + 1)))) by lia.
      exact Hn.
Qed.

Lemma index_of_id_present (s : State) (target : Z) :
  In target (map id (captureImages s)) ->
  0 <= index_of_id s target < Z.of_nat (List.length (captureImages s))
  /\ exists c,
       nth_error (captureImages s) (Z.to_nat (index_of_id s target)) = Some c
       /\ id c = target.
Proof.
  intros Hin. unfold index_of_id.
  destruct (reduce_indexed_spec target (captureImages s) 0 (-1))
    as [[_ Hnot]|[Hr (c & Hn & Hc)]]; [contradiction|].
  split; [lia|]. exists c. rewrite Z.sub_0_r in Hn. now split.
Qed.

Lemma slice_inside {A : Type} (l : list A) (lo hi : Z) :
  0 <= lo -> lo <= hi -> hi < Z.of_nat (List.length l) ->
  slice l lo (hi + 1)
  = firstn (Z.to_nat (hi - lo + 1)) (skipn (Z.to_nat lo) l).
Proof.
  intros H0 Hlh Hlen. unfold slice.
  destruct (Z.ltb_spec lo 0); [lia|].
  destruct (Z.ltb_spec (hi + 1) 0); [lia|].
  rewrite !Z.min_l by lia. f_equal. lia.
Qed.

(** Shift click with no anchor, or with an anchor that is on the page:
    the selection is the range of the page between the two indices, both
    included; it holds the clicked id, and the anchor is not written. *)
Lemma shift_click_range (s : State) (cid : Z) (cmd ctrl : bool) :
  In cid (map id (captureImages s)) ->
  (forall a, captureImageAnchor s = Some a ->
             In a (map id (captureImages s))) ->
  let indexAnchor :=
    match captureImageAnchor s with
    | None => 0
    | Some a => index_of_id s a
    end in
  let indexCurrent := index_of_id s cid in
  let s' := next_state s (clickCapture s (mkClick cid true cmd ctrl)) in
  captureImagesSelected s'
  = range_ids s (Z.min indexAnchor indexCurrent)
      (Z.max indexAnchor indexCurrent)
  /\ In cid (captureImagesSelected s')
  /\ captureImageAnchor s' = captureImageAnchor s.
Proof.
  intros Hcid Hanchor indexAnchor indexCurrent s'.
  destruct (index_of_id_present s cid Hcid) as (Hc & c & Hn & Hidc).
  fold indexCurrent in Hc, Hn.
  assert (Ha : 0 <= indexAnchor < Z.of_nat (List.length (captureImages s))).
  { unfold indexAnchor. destruct (captureImageAnchor s) as [a|].
    - now apply index_of_id_present, Hanchor.
    - lia. }
  assert (Es : captureImagesSelected s'
               = range_ids s (Z.min indexAnchor indexCurrent)
                   (Z.max indexAnchor indexCurrent)).
  { unfold s', next_state, trace_of, clickCapture, range_ids. simpl.
    fold indexAnchor indexCurrent. now rewrite slice_inside by lia. }
  split; [exact Es|]. split; [|reflexivity].
  rewrite Es. unfold range_ids. rewrite <- Hidc. apply in_map.
  apply nth_error_In
    with (n := Z.to_nat (indexCurrent - Z.min indexAnchor indexCurrent)).
  rewrite nth_error_firstn.
  destruct (Nat.ltb_spec
              (Z.to_nat (indexCurrent - Z.min indexAnchor indexCurrent))
              (Z.to_nat (Z.max indexAnchor indexCurrent
                         - Z.min indexAnchor indexCurrent + 1))); [|lia].
  rewrite nth_error_skipn. rewrite <- Hn. f_equal. lia.
Qed.

(** C3, on the code.  The page holds the captures 1 to 5 and the anchor
    is 9, an id that is not on the page.  The index computed for the
    anchor is -1, not 0; the slice from -1 starts at the last entry, so
    a shift click on 2 (index 1) selects nothing, where the range from
    index 0 to the clicked capture is 1, 2.  The clicked id is not in the
    selection. *)
Theorem shift_click_stale_anchor :
  let s' := next_state stale_anchor
              (clickCapture stale_anchor (mkClick 2 true false false)) in
  map id (captureImages stale_anchor) = [1; 2; 3; 4; 5]
  /\ captureImageAnchor stale_anchor = Some 9
  /\ index_of_id stale_anchor 9 = -1
  /\ index_of_id stale_anchor 2 = 1
  /\ captureImagesSelected s' = []
  /\ range_ids stale_anchor 0 1 = [1; 2]
  /\ ~ In 2 (captureImagesSelected s')
  /\ captureImageAnchor s' = Some 9.
Proof. repeat split. intros []. Qed.

(** * Further properties of the handlers *)

(** ** Selection *)

Lemma NoDup_skipn {A : Type} (n : nat) (l : list A) :
  NoDup l -> NoDup (skipn n l).
Proof.
  intros H. rewrite <- (firstn_skipn n l) in H.
  now apply NoDup_app_remove_l in H.
Qed.

Lemma NoDup_firstn {A : Type} (n : nat) (l : list A) :
  NoDup l -> NoDup (firstn n l).
Proof.
  intros H. rewrite <- (firstn_skipn n l) in H.
  now apply NoDup_app_remove_r in H.
Qed.

Lemma In_slice {A : Type} (l : list A) (lo hi : Z) (x : A) :
  In x (slice l lo hi) -> In x l.
Proof.
  unfold slice. intros H.
  set (k := Z.to_nat _) in H. set (n := Z.to_nat _) in H.
  rewrite <- (firstn_skipn n l). apply in_or_app. right.
  rewrite <- (firstn_skipn k (skipn n l)). apply in_or_app. now left.
Qed.

Lemma shift_click_state (s : State) (cid : Z) (cmd ctrl : bool) :
  next_state s (clickCapture s (mkClick cid true cmd ctrl))
  = apply_event s
      (SetCaptureImagesSelected (shift_selection s (captureImageAnchor s) cid)).
Proof.
  unfold next_state, trace_of, clickCapture. simpl.
  destruct cmd, ctrl; reflexivity.
Qed.

(** X1.  Whatever the anchor and the clicked id, and whatever cmd and
    ctrl, a shift click selects the ids of a run of consecutive entries
    of the page: every selected id is on the page, the selection has no
    duplicate when the page has none, the anchor is not written and no
    request is sent. *)
Theorem shift_click_segment (s : State) (cid : Z) (cmd ctrl : bool) :
  let run := clickCapture s (mkClick cid true cmd ctrl) in
  let s' := next_state s run in
  (exists lo len,
     captureImagesSelected s'
     = map id (firstn len (skipn lo (captureImages s))))
  /\ (forall x, In x (captureImagesSelected s') ->
                In x (map id (captureImages s)))
  /\ (NoDup (map id (captureImages s)) -> NoDup (captureImagesSelected s'))
  /\ captureImagesSelected s'
     = captureImagesSelected
         (next_state s (clickCapture s (mkClick cid true false false)))
  /\ captureImageAnchor s' = captureImageAnchor s
  /\ captureImages s' = captureImages s
  /\ calls (trace_of run) = [].
Proof.
  cbv zeta. rewrite !shift_click_state. cbn [apply_event captureImagesSelected
    captureImageAnchor captureImages].
  split; [unfold shift_selection, slice; eexists _, _; reflexivity|].
  split.
  { intros x Hx. unfold shift_selection in Hx. apply in_map_iff in Hx.
    destruct Hx as (c & <- & Hc). apply in_map. eapply In_slice, Hc. }
  split.
  { intros Hnd. unfold shift_selection, slice.
    rewrite <- firstn_map, <- skipn_map.
    now apply NoDup_firstn, NoDup_skipn. }
  split; [reflexivity|]. split; [reflexivity|]. split; [reflexivity|].
  unfold trace_of, clickCapture. simpl. destruct cmd, ctrl; reflexivity.
Qed.

Lemma shift_selection_comm (s : State) (a c : Z) :
  shift_selection s (Some a) c = shift_selection s (Some c) a.
Proof. unfold shift_selection. now rewrite Z.min_comm, Z.max_comm. Qed.

Lemma firstn_one_skipn {A : Type} (l : list A) (n : nat) (x : A) :
  nth_error l n = Some x -> firstn 1 (skipn n l) = [x].
Proof.
  revert l. induction n as [|n IH]; intros [|y l]; simpl; try discriminate.
  - intros E. now injection E as ->.
  - apply IH.
Qed.

(** X2.  The range of a shift click does not depend on which end is the
    anchor: with the anchor [a] a shift click on [c] selects what a shift
    click on [a] selects with the anchor [c]. *)
Theorem shift_click_symmetric (s : State) (a c : Z) :
  let sa := run_state s [SetCaptureImageAnchor (Some a)] in
  let sc := run_state s [SetCaptureImageAnchor (Some c)] in
  captureImagesSelected
    (next_state sa (clickCapture sa (mkClick c true false false)))
  = captureImagesSelected
      (next_state sc (clickCapture sc (mkClick a true false false))).
Proof.
  cbv zeta. rewrite !shift_click_state.
  cbn [apply_event captureImagesSelected run_state fold_left
       captureImageAnchor].
  exact (shift_selection_comm s a c).
Qed.

(** X3.  A plain click on a capture of the page followed by a shift
    click on a capture of the page selects the ids of the entries
    between the two, both included, in the order of the page, whichever
    comes first; the first id stays the anchor.  A shift click on the
    anchor itself selects that id alone. *)
Theorem click_then_shift_click (s : State) (a c : Z) :
  In a (map id (captureImages s)) ->
  In c (map id (captureImages s)) ->
  let s1 := next_state s (clickCapture s (mkClick a false false false)) in
  let s2 := next_state s1 (clickCapture s1 (mkClick c true false false)) in
  captureImagesSelected s2
  = range_ids s (Z.min (index_of_id s a) (index_of_id s c))
      (Z.max (index_of_id s a) (index_of_id s c))
  /\ In a (captureImagesSelected s2)
  /\ In c (captureImagesSelected s2)
  /\ captureImageAnchor s2 = Some a
  /\ (a = c -> captureImagesSelected s2 = [a]).
Proof.
  intros Ha Hc. cbv zeta.
  set (s1 := next_state s (clickCapture s (mkClick a false false false))).
  assert (Ha1 : forall x, captureImageAnchor s1 = Some x ->
                          In x (map id (captureImages s1))).
  { intros x E. injection E as <-. exact Ha. }
  destruct (shift_click_range s1 c false false Hc Ha1) as (Er & Hinc & Ean).
  set (sc := run_state s [SetCaptureImageAnchor (Some c)]).
  assert (Hc1 : forall x, captureImageAnchor sc = Some x ->
                          In x (map id (captureImages sc))).
  { intros x E. injection E as <-. exact Hc. }
  destruct (shift_click_range sc a false false Ha Hc1) as (_ & Hina & _).
  rewrite shift_click_state in Hina.
  rewrite shift_click_state in *.
  cbn [apply_event captureImagesSelected captureImageAnchor] in *.
  change (shift_selection sc (captureImageAnchor sc) a)
    with (shift_selection s (Some c) a) in Hina.
  change (shift_selection s1 (captureImageAnchor s1) c)
    with (shift_selection s (Some a) c) in *.
  rewrite <- shift_selection_comm in Hina.
  assert (Er' : shift_selection s (Some a) c
                = range_ids s (Z.min (index_of_id s a) (index_of_id s c))
                    (Z.max (index_of_id s a) (index_of_id s c)))
    by exact Er.
  split; [exact Er'|]. split; [exact Hina|]. split; [exact Hinc|].
  split; [exact Ean|].
  intros <-. rewrite Er'. unfold range_ids.
  rewrite Z.min_id, Z.max_id, Z.sub_diag.
  destruct (index_of_id_present s a Ha) as (_ & c0 & Hn & Hid).
  change (Z.to_nat (0 + 1)) with 1%nat.
  now rewrite (firstn_one_skipn _ _ _ Hn), <- Hid.
Qed.

(** A click on 4, then a shift click on 2, on the page 1 to 5. *)
Lemma click_then_shift_click_witness :
  let s1 := next_state page_1_to_5
              (clickCapture page_1_to_5 (mkClick 4 false false false)) in
  let s2 := next_state s1 (clickCapture s1 (mkClick 2 true false false)) in
  captureImagesSelected s2 = range_ids page_1_to_5 1 3
  /\ captureImageAnchor s2 = Some 4.
Proof.
  assert (H4 : In 4 (map id (captureImages page_1_to_5))) by (simpl; tauto).
  assert (H2 : In 2 (map id (captureImages page_1_to_5))) by (simpl; tauto).
  destruct (click_then_shift_click page_1_to_5 4 2 H4 H2)
    as (E & _ & _ & Ean & _).
  split; [exact E|exact Ean].
Defined.

(** X4.  A cmd or ctrl click on an id other than 0 toggles that id and
    nothing else: the id is selected afterwards exactly when it was not
    before, the other ids are kept in their order, a selection without
    duplicates stays so, and neither the anchor nor the page is
    written. *)
Theorem modifier_click_toggles (s : State) (cid : Z) (cmd ctrl : bool) :
  cid <> 0 ->
  cmd || ctrl = true ->
  let s' := next_state s (clickCapture s (mkClick cid false cmd ctrl)) in
  let others := List.filter (fun x => negb (x =? cid)) in
  (In cid (captureImagesSelected s') <-> ~ In cid (captureImagesSelected s))
  /\ others (captureImagesSelected s') = others (captureImagesSelected s)
  /\ (forall x, x <> cid ->
        (In x (captureImagesSelected s') <-> In x (captureImagesSelected s)))
  /\ (NoDup (captureImagesSelected s) -> NoDup (captureImagesSelected s'))
  /\ captureImageAnchor s' = captureImageAnchor s
  /\ captureImages s' = captureImages s.
Proof.
  intros Hnz Hmod. cbv zeta. rewrite (modifier_click_state s cid cmd ctrl Hmod).
  cbn [apply_event captureImagesSelected captureImageAnchor captureImages].
  set (sel := captureImagesSelected s).
  assert (Eo : List.filter (fun x => negb (x =? cid)) (toggled sel cid)
               = List.filter (fun x => negb (x =? cid)) sel).
  { destruct (in_dec Z.eq_dec cid sel) as [Hin|Hout].
    - rewrite (toggled_present _ _ Hnz Hin).
      apply filter_out_absent, filter_out_removes.
    - rewrite (toggled_absent _ _ Hout), filter_app. simpl.
      rewrite Z.eqb_refl. simpl. apply app_nil_r. }
  split.
  { destruct (in_dec Z.eq_dec cid sel) as [Hin|Hout].
    - rewrite (toggled_present _ _ Hnz Hin). split; [|tauto].
      intros H. now apply filter_out_removes in H.
    - rewrite (toggled_absent _ _ Hout). split; [tauto|].
      intros _. apply in_or_app. right. now left. }
  split; [exact Eo|]. split.
  { intros x Hx.
    assert (Hf : forall l, In x l
                  <-> In x (List.filter (fun y => negb (y =? cid)) l)).
    { intros l. rewrite filter_In. split; [|tauto].
      intros H. split; [exact H|].
      destruct (Z.eqb_spec x cid); [contradiction|reflexivity]. }
    rewrite (Hf (toggled sel cid)), Eo. symmetry. apply Hf. }
  split; [|split; reflexivity].
  intros Hnd. destruct (in_dec Z.eq_dec cid sel) as [Hin|Hout].
  - rewrite (toggled_present _ _ Hnz Hin). now apply NoDup_filter.
  - rewrite (toggled_absent _ _ Hout).
    apply NoDup_app; [exact Hnd|repeat constructor; intros []|].
    intros x Hx [<-|[]]. contradiction.
Qed.

(** A ctrl click on 3 removes it from the selection 2, 3, 4. *)
Lemma modifier_click_toggles_witness :
  ~ In 3 (captureImagesSelected
            (next_state selected_2_3_4
               (clickCapture selected_2_3_4 (mkClick 3 false false true)))).
Proof.
  assert (H3 : 3 <> 0) by discriminate.
  assert (Hm : false || true = true) by reflexivity.
  destruct (modifier_click_toggles selected_2_3_4 3 false true H3 Hm)
    as (Ht & _).
  intros Hin. apply Ht in Hin. apply Hin. simpl. tauto.
Defined.

(** X5.  The id 0 cannot be deselected with cmd or ctrl: [find] returns
    the id itself, 0 is falsy, and the click appends 0 to the selection
    whether it holds 0 or not; a selection that holds 0 has it twice
    afterwards. *)
Theorem modifier_click_zero_appends (s : State) (cmd ctrl : bool) :
  cmd || ctrl = true ->
  let s' := next_state s (clickCapture s (mkClick 0 false cmd ctrl)) in
  captureImagesSelected s' = captureImagesSelected s ++ [0]
  /\ (In 0 (captureImagesSelected s) -> ~ NoDup (captureImagesSelected s')).
Proof.
  intros Hmod. cbv zeta. rewrite (modifier_click_state s 0 cmd ctrl Hmod).
  cbn [apply_event captureImagesSelected].
  assert (E : toggled (captureImagesSelected s) 0
              = captureImagesSelected s ++ [0]).
  { unfold toggled.
    destruct (find (fun el => el =? 0) (captureImagesSelected s)) as [x|] eqn:Ef;
      [|reflexivity].
    apply find_some in Ef. destruct Ef as [_ Ex]. simpl. now rewrite Ex. }
  rewrite E. split; [reflexivity|].
  intros Hin Hnd. apply NoDup_remove_2 with (l' := []) in Hnd.
  apply Hnd. now rewrite app_nil_r.
Qed.

(** Two ctrl clicks on 0 from an empty selection. *)
Lemma modifier_click_zero_appends_witness :
  let p := mkClick 0 false false true in
  let s1 := next_state page_1_to_5 (clickCapture page_1_to_5 p) in
  captureImagesSelected (next_state s1 (clickCapture s1 p)) = [0; 0].
Proof.
  assert (Hm : false || true = true) by reflexivity.
  set (p := mkClick 0 false false true).
  set (s1 := next_state page_1_to_5 (clickCapture page_1_to_5 p)).
  destruct (modifier_click_zero_appends s1 false true Hm) as [E _].
  exact E.
Defined.

(** The page 1 to 5 has no duplicate id; a shift click on 4 without an
    anchor selects 1 to 4. *)
Lemma shift_click_segment_witness :
  NoDup (captureImagesSelected
           (next_state page_1_to_5
              (clickCapture page_1_to_5 (mkClick 4 true false true)))).
Proof.
  destruct (shift_click_segment page_1_to_5 4 false true)
    as (_ & _ & Hnd & _).
  apply Hnd. simpl.
  repeat constructor; simpl; intros H;
    repeat (destruct H as [H|H]; [discriminate H|]); exact H.
Defined.

(** ** Filter, page loader and count *)

Lemma updateFilter_state (s : State) (f : option FilterModel) :
  next_state s (updateFilter s f)
  = mkState [] (captureImagesUndo s) [] None (isLoading s)
      (isApproveAllProcessing s) (approveAllComplete s) (pageSize s) 0
      (match f with Some g => g | None => filter s end) true None.
Proof. reflexivity. Qed.

(** X6.  [updateFilter] installs the filter it is given (the current one
    when it is given none) and resets the page, the page number, the
    count and the selection; it keeps the undo list, the page size and
    the two flags, sends no request, and doing it again changes nothing.
    Called without a filter on page 0 it changes none of the
    dependencies of the load effect, although it has emptied the page.
    The body of the load effect, run from the state it leaves, asks for
    [skip = 0] under the installed filter, and for nothing when
    [isLoading] is true. *)
Theorem updateFilter_resets (s : State) (f : option FilterModel) :
  let s1 := next_state s (updateFilter s f) in
  let newfilter := match f with Some g => g | None => filter s end in
  (filter s1 = newfilter
   /\ captureImages s1 = []
   /\ currentPage s1 = 0
   /\ captureCount s1 = None
   /\ invalidateCaptureCount s1 = true
   /\ captureImagesSelected s1 = []
   /\ captureImageAnchor s1 = None)
  /\ (captureImagesUndo s1 = captureImagesUndo s
      /\ pageSize s1 = pageSize s
      /\ isLoading s1 = isLoading s
      /\ isApproveAllProcessing s1 = isApproveAllProcessing s)
  /\ calls (trace_of (updateFilter s f)) = []
  /\ next_state s1 (updateFilter s1 f) = s1
  /\ (f = None -> currentPage s = 0 ->
      loadEffect_deps s1 = loadEffect_deps s)
  /\ (forall backend signal,
        (isLoading s = false ->
         requests (trace_of (loadEffect backend s1 signal))
         = [api.getCaptureImages 0 (pageSize s) newfilter (Some signal)])
        /\ (isLoading s = true ->
            trace_of (loadEffect backend s1 signal) = [SetCaptureImages []])).
Proof.
  cbv zeta. rewrite (updateFilter_state s f).
  split; [now repeat split|]. split; [now repeat split|].
  split; [reflexivity|]. split; [now destruct f|].
  split.
  { intros -> E. unfold loadEffect_deps. cbn [filter pageSize currentPage].
    now rewrite E. }
  intros backend signal.
  unfold trace_of, loadEffect, bind, setCaptureImages, emit.
  rewrite loadCaptureImages_run. unfold pageParams.
  cbn [isLoading pageSize currentPage filter].
  rewrite Z.mul_0_r.
  split; intros Hl; rewrite Hl; [|reflexivity].
  cbn [requests calls flat_map map app].
  destruct (resolves backend [] _); reflexivity.
Qed.

(** A filter change on the idle page 1 to 5 and the body of the load
    effect; [updateFilter()] on that page, which is page 0. *)
Lemma updateFilter_resets_witness :
  let s1 := next_state page_1_to_5
              (updateFilter page_1_to_5 (Some (mkFilter true true))) in
  let s2 := next_state page_1_to_5 (updateFilter page_1_to_5 None) in
  requests (trace_of (loadEffect server_ok s1 3%nat))
  = [api.getCaptureImages 0 24 (mkFilter true true) (Some 3%nat)]
  /\ loadEffect_deps s2 = loadEffect_deps page_1_to_5.
Proof.
  destruct (updateFilter_resets page_1_to_5 (Some (mkFilter true true)))
    as (_ & _ & _ & _ & _ & Hload).
  destruct (updateFilter_resets page_1_to_5 None)
    as (_ & _ & _ & _ & Hdeps & _).
  split.
  - apply (Hload server_ok 3%nat). reflexivity.
  - apply Hdeps; reflexivity.
Defined.

(** X7.  A page request that is rejected makes [loadCaptureImages] throw
    after it has set [isLoading]: the flag is true in the next state, the
    page is as it was, and from that state every call of
    [loadCaptureImages], whatever the server, returns [true] without a
    request. *)
Theorem loadCaptureImages_rejected_blocks (backend : Backend) (s : State)
  (signal : option nat) :
  isLoading s = false ->
  resolves backend [] (pageParams s signal) = false ->
  let run := loadCaptureImages backend s signal in
  let s' := next_state s run in
  result_of run = Threw (Rejected (pageParams s signal))
  /\ trace_of run = [SetIsLoading true; Call (pageParams s signal) false]
  /\ isLoading s' = true
  /\ captureImages s' = captureImages s
  /\ forall backend' signal' h,
       loadCaptureImages backend' s' signal' h = (Returned (Some true), h).
Proof.
  intros Hl Hr. cbv zeta. unfold result_of, next_state, trace_of.
  rewrite loadCaptureImages_run, Hl. cbn [requests calls flat_map map].
  rewrite Hr. cbn [fst snd app].
  split; [reflexivity|]. split; [reflexivity|].
  split; [reflexivity|]. split; [reflexivity|].
  intros backend' signal' h. now rewrite loadCaptureImages_run.
Qed.

Lemma loadCaptureImages_rejected_blocks_witness :
  let s' := next_state page_1_to_5
              (loadCaptureImages server_down page_1_to_5 None) in
  isLoading s' = true
  /\ loadCaptureImages server_ok s' None [] = (Returned (Some true), []).
Proof.
  destruct (loadCaptureImages_rejected_blocks server_down page_1_to_5 None
              eq_refl eq_refl) as (_ & _ & Hl & _ & Hb).
  split; [exact Hl|apply Hb].
Defined.

(** X8.  The load effect empties the page before it loads.  From a
    render whose [isLoading] is true the page stays empty and nothing is
    requested; otherwise the page of the next state is what the server
    answered, or stays empty, with [isLoading] left true, when the
    request is rejected. *)
Theorem loadEffect_page (backend : Backend) (s : State) (signal : nat) :
  let p := pageParams s (Some signal) in
  let run := loadEffect backend s signal in
  let s' := next_state s run in
  (isLoading s = true ->
   captureImages s' = [] /\ calls (trace_of run) = []
   /\ isLoading s' = true)
  /\ (isLoading s = false -> resolves backend [] p = true ->
      captureImages s' = page_of backend [] p
      /\ calls (trace_of run) = [(p, true)]
      /\ isLoading s' = false)
  /\ (isLoading s = false -> resolves backend [] p = false ->
      captureImages s' = []
      /\ result_of run = Threw (Rejected p)
      /\ isLoading s' = true).
Proof.
  cbv zeta. unfold result_of, next_state, trace_of, loadEffect, bind,
    setCaptureImages, emit.
  rewrite loadCaptureImages_run. cbn [requests calls flat_map map app].
  split; [|split].
  - intros Hl. rewrite Hl. cbn [snd run_state fold_left apply_event
      captureImages isLoading calls flat_map app]. now rewrite Hl.
  - intros Hl Hr. rewrite Hl, Hr. now repeat split.
  - intros Hl Hr. rewrite Hl, Hr. now repeat split.
Qed.

Lemma loadEffect_page_witness :
  captureImages (next_state loading (loadEffect server_ok loading 1%nat)) = []
  /\ captureImages
       (next_state page_1_to_5 (loadEffect server_ok page_1_to_5 1%nat))
     = map capture [7; 8]
  /\ captureImages
       (next_state page_1_to_5 (loadEffect server_down page_1_to_5 1%nat))
     = [].
Proof.
  destruct (loadEffect_page server_ok loading 1%nat) as (H1 & _ & _).
  destruct (loadEffect_page server_ok page_1_to_5 1%nat) as (_ & H2 & _).
  destruct (loadEffect_page server_down page_1_to_5 1%nat) as (_ & _ & H3).
  split; [apply H1; reflexivity|].
  split; [apply H2; reflexivity|apply H3; reflexivity].
Defined.

(** X9.  [getCaptureCount] asks the count for the filter it is given, or
    for the current filter.  When the request resolves the next state
    holds the answer and the count is valid, so that the count effect of
    that render does nothing; when it is rejected nothing is written.
    The count effect itself asks nothing from a render whose count is
    valid. *)
Theorem getCaptureCount_settles (backend : Backend) (s : State)
  (f : option FilterModel) :
  let q := api.getCaptureCount
             (match f with Some g => g | None => filter s end) in
  let run := getCaptureCount backend s f in
  let s' := next_state s run in
  (resolves backend [] q = true ->
   captureCount s' = Some (count_of backend [] q)
   /\ invalidateCaptureCount s' = false
   /\ requests (trace_of run) = [q]
   /\ forall backend' h, countEffect backend' s' h = (Returned tt, h))
  /\ (resolves backend [] q = false ->
      result_of run = Threw (Rejected q) /\ s' = s)
  /\ (invalidateCaptureCount s = false ->
      forall h, countEffect backend s h = (Returned tt, h))
  /\ (invalidateCaptureCount s = true ->
      countEffect backend s = getCaptureCount backend s None).
Proof.
  cbv zeta. unfold result_of, next_state, trace_of, getCaptureCount, bind,
    call_with, setCaptureCount, setInvalidateCaptureCount, emit.
  cbn [requests calls flat_map map app].
  split; [|split; [|split]].
  - intros Hr. rewrite Hr. cbn [snd app run_state fold_left apply_event
      captureCount invalidateCaptureCount].
    now repeat split.
  - intros Hr. rewrite Hr. now split.
  - intros Hi h. unfold countEffect. now rewrite Hi.
  - intros Hi. unfold countEffect. now rewrite Hi.
Qed.

Lemma getCaptureCount_settles_witness :
  captureCount
    (next_state page_1_to_5 (getCaptureCount server_ok page_1_to_5 None))
  = Some 2
  /\ next_state page_1_to_5 (getCaptureCount server_down page_1_to_5 None)
     = page_1_to_5.
Proof.
  destruct (getCaptureCount_settles server_ok page_1_to_5 None)
    as (Hok & _).
  destruct (getCaptureCount_settles server_down page_1_to_5 None)
    as (_ & Hko & _).
  split; [apply Hok; reflexivity|apply Hko; reflexivity].
Defined.

(** ** Batch approve *)

Lemma run_state_progress (t : list event) (st : State) :
  approveAllComplete (run_state st t)
  = last (progress t) (approveAllComplete st).
Proof.
  induction t as [|e t IH] using rev_ind; [reflexivity|].
  rewrite run_state_app, progress_app. simpl.
  destruct e; simpl; rewrite ?app_nil_r; try exact IH.
  now rewrite last_last.
Qed.

(** The store after events that only write the progress. *)
Lemma run_state_progress_only (t : list event) (st : State) :
  Forall progress_event t ->
  run_state st t
  = apply_event st
      (SetApproveAllComplete (last (progress t) (approveAllComplete st))).
Proof.
  intros H. rewrite <- run_state_progress.
  rewrite <- (run_state_progress_events t H st).
  now destruct (run_state st t).
Qed.

Lemma flat_map_nth_seq {A B : Type} (g : A -> list B) (d : A) (l : list A) :
  flat_map (fun j => g (nth j l d)) (seq 0 (List.length l)) = flat_map g l.
Proof.
  rewrite !flat_map_concat_map. f_equal.
  rewrite (map_nth_seq g d l (List.length l)) by reflexivity.
  now rewrite firstn_all.
Qed.

Section ApproveMore.

Variable backend : Backend.
Variable s : State.

(** [approveAll] after its loop. *)
Lemma approveAll_unfold (act : option ApproveAction) :
  approveAll backend s act []
  = match approveAll_batch backend s act approveAll_prologue with
    | (Returned _, h1) =>
        match loadCaptureImages backend s None
                (h1 ++ [SetCaptureImagesUndo (undo_snapshot s);
                        SetIsLoading false]) with
        | (Returned _, h3) => (Returned true, h3 ++ approveAll_epilogue)
        | (Threw e, h3) => (Threw e, h3)
        end
    | (Threw _, h1) =>
        (Returned false,
         h1 ++ [SetIsLoading false; SetIsApproveAllProcessing false])
    end.
Proof.
  unfold approveAll, bind, try_catch, setIsLoading,
    setIsApproveAllProcessing, setCaptureImagesUndo, emit, ret. simpl.
  change [SetIsLoading true; SetIsApproveAllProcessing true]
    with approveAll_prologue.
  destruct (approveAll_batch backend s act approveAll_prologue)
    as [[u|e] h1].
  - rewrite <- app_assoc. simpl.
    destruct (loadCaptureImages backend s None
                (h1 ++ [SetCaptureImagesUndo (undo_snapshot s);
                        SetIsLoading false])) as [[v|e] h3];
      [|reflexivity].
    unfold resetSelection, setApproveAllComplete, setInvalidateCaptureCount,
      setCaptureImagesSelected, setCaptureImageAnchor, bind, emit.
    repeat rewrite <- app_assoc. reflexivity.
  - repeat rewrite <- app_assoc. reflexivity.
Qed.

(** The requests of an iteration that completes. *)
Lemma approveAll_item_requests (a : ApproveAction) (total i : nat)
  (h h1 : list event) (u : unit) :
  approveAll_item backend s (Some a) total i h = (Returned u, h1) ->
  requests h1
  = requests h ++ item_requests a (nth i (captureImagesSelected s) 0).
Proof.
  unfold approveAll_item.
  destruct (lookup_capture s (nth_error (captureImagesSelected s) i))
    as [c|] eqn:El; [|discriminate].
  apply lookup_capture_id in El.
  rewrite (nth_error_nth _ _ 0 El).
  unfold bind.
  pose proof (approve_runs backend a (id c) h) as R.
  destruct (approve backend (Some a) (id c) h) as [ra ha].
  inversion R as [t Ht E|E|l Ht E]; clear R; [|discriminate|discriminate].
  unfold setApproveAllComplete, emit. intros Hout. injection Hout as _ <-.
  rewrite !requests_app. unfold item_requests.
  destruct Ht as [[-> ->]|(l & -> & ->)]; simpl; now rewrite app_nil_r.
Qed.

(** The requests of a loop that completes. *)
Lemma approveAll_loop_requests (a : ApproveAction) (total n : nat) :
  forall i h,
    fst (for_range n i (approveAll_item backend s (Some a) total) h)
    = Returned tt ->
    requests (snd (for_range n i (approveAll_item backend s (Some a) total) h))
    = requests h
      ++ flat_map (fun j => item_requests a (nth j (captureImagesSelected s) 0))
                  (seq i n).
Proof.
  induction n as [|n IH]; intros i h.
  - simpl. now rewrite app_nil_r.
  - simpl. unfold bind.
    destruct (approveAll_item backend s (Some a) total i h) as [[u|e] h1] eqn:Ei;
      [|discriminate].
    intros Hr. rewrite (IH (S i) h1 Hr).
    rewrite (approveAll_item_requests _ _ _ _ _ _ Ei).
    now rewrite <- app_assoc.
Qed.

End ApproveMore.

(** X10.  A batch approve with an action that returns [true] has sent,
    for each selected id in the order of the selection, the approve or
    reject request and then, when the action has tags, the tag request
    for the same id; after them, from a render whose [isLoading] is
    false, one request for the current page, whose answer is the page of
    the next state.  From a render whose [isLoading] is true no page is
    requested and the page is as it was. *)
Theorem approveAll_success_requests (backend : Backend) (s : State)
  (a : ApproveAction) :
  let run := approveAll backend s (Some a) in
  let s' := next_state s run in
  let sent := flat_map (item_requests a) (captureImagesSelected s) in
  result_of run = Returned true ->
  requests (trace_of run)
  = sent ++ (if isLoading s then [] else [pageParams s None])
  /\ captureImages s'
     = (if isLoading s then captureImages s
        else page_of backend sent (pageParams s None)).
Proof.
  cbv zeta. unfold result_of, next_state, trace_of.
  destruct (approveAll_batch_summary backend s (Some a) approveAll_prologue)
    as (r & t & m & E & Hg & _ & _).
  pose proof (approveAll_loop_requests backend s a
                (List.length (captureImagesSelected s))
                (List.length (captureImagesSelected s)) O
                approveAll_prologue) as Hreq.
  fold (approveAll_batch backend s (Some a) approveAll_prologue) in Hreq.
  rewrite approveAll_unfold, E in *. cbn [fst snd] in Hreq.
  destruct r as [[]|e]; [|discriminate].
  specialize (Hreq eq_refl). rewrite flat_map_nth_seq in Hreq.
  rewrite requests_app in Hreq. cbn [approveAll_prologue requests calls
    flat_map map app] in Hreq.
  rewrite loadCaptureImages_run.
  assert (Eq : requests
                 ((approveAll_prologue ++ t)
                  ++ [SetCaptureImagesUndo (undo_snapshot s);
                      SetIsLoading false])
               = flat_map (item_requests a) (captureImagesSelected s)).
  { rewrite !requests_app. rewrite <- Hreq. simpl. now rewrite app_nil_r. }
  rewrite Eq.
  destruct (progress_events_frame t (run_state s approveAll_prologue) Hg)
    as (Hci & _).
  destruct (isLoading s).
  - cbn [fst snd]. intros _. split.
    + rewrite !requests_app, Hreq. simpl. now rewrite !app_nil_r.
    + rewrite !run_state_app. exact Hci.
  - destruct (resolves backend _ (pageParams s None)); [|discriminate].
    cbn [fst snd]. intros _. split.
    + rewrite !requests_app, Hreq. simpl. now rewrite !app_nil_r.
    + now rewrite !run_state_app.
Qed.

(** The rejection with tags of 2, 4 and 5: six item requests and one page
    request. *)
Lemma approveAll_success_requests_witness :
  requests (trace_of (approveAll server_ok selected_2_4_5
                        (Some reject_action_with_tags)))
  = flat_map (item_requests reject_action_with_tags) [2; 4; 5]
    ++ [pageParams selected_2_4_5 None].
Proof.
  apply (approveAll_success_requests server_ok selected_2_4_5
           reject_action_with_tags).
  reflexivity.
Defined.

(** X11.  [approveAll] throws only when the page request of its reload
    is rejected.  The loop has then completed: the undo list is
    installed, but [isLoading] and [isApproveAllProcessing] are left
    true, the selection and the anchor are not cleared, the page is not
    replaced and the count is not invalidated. *)
Theorem approveAll_reload_rejected (backend : Backend) (s : State)
  (act : option ApproveAction) (e : exn) :
  let run := approveAll backend s act in
  let s' := next_state s run in
  result_of run = Threw e ->
  e = Rejected (pageParams s None)
  /\ isLoading s = false
  /\ captureImagesUndo s' = undo_snapshot s
  /\ isLoading s' = true
  /\ isApproveAllProcessing s' = true
  /\ captureImagesSelected s' = captureImagesSelected s
  /\ captureImageAnchor s' = captureImageAnchor s
  /\ captureImages s' = captureImages s
  /\ invalidateCaptureCount s' = invalidateCaptureCount s.
Proof.
  cbv zeta. unfold result_of, next_state, trace_of.
  destruct (approveAll_batch_summary backend s act approveAll_prologue)
    as (r & t & m & E & Hg & _ & _).
  apply approveAll_from_batch in E. destruct r as [u|e0].
  - destruct E as (tl & res & E & Htl). rewrite E. cbn [fst snd].
    destruct Htl as [Hl|page Hl|Hl]; try discriminate.
    intros H. injection H as <-.
    rewrite !run_state_app, (run_state_progress_only t _ Hg).
    now repeat split.
  - rewrite E. discriminate.
Qed.

(** Three approvals resolve, then the page request is rejected. *)
Lemma approveAll_reload_rejected_witness :
  let run := approveAll (server_failing_at 3) selected_2_4_5
               (Some approve_action) in
  isLoading (next_state selected_2_4_5 run) = true
  /\ captureImagesSelected (next_state selected_2_4_5 run) = [2; 4; 5].
Proof.
  destruct (approveAll_reload_rejected (server_failing_at 3) selected_2_4_5
              (Some approve_action) (Rejected (pageParams selected_2_4_5 None))
              eq_refl) as (_ & _ & _ & Hl & _ & Hs & _).
  split; [exact Hl|exact Hs].
Defined.

(** X12.  When [approveAll] returns [false], whatever stopped the loop
    (a rejected call, a selected id without a capture on the page, a
    missing action), both flags are false, no page was requested, and the
    selection, the anchor, the page, the undo list and the invalidation
    flag are as they were; the progress is not reset: it keeps the value
    written for the last completed item, of which there are fewer than
    selected ids. *)
Theorem approveAll_failure_frame (backend : Backend) (s : State)
  (act : option ApproveAction) :
  let run := approveAll backend s act in
  let s' := next_state s run in
  let n := List.length (captureImagesSelected s) in
  result_of run = Returned false ->
  (isLoading s' = false /\ isApproveAllProcessing s' = false)
  /\ (captureImagesSelected s' = captureImagesSelected s
      /\ captureImageAnchor s' = captureImageAnchor s
      /\ captureImages s' = captureImages s
      /\ captureImagesUndo s' = captureImagesUndo s
      /\ invalidateCaptureCount s' = invalidateCaptureCount s)
  /\ (forall r ok, In (r, ok) (calls (trace_of run)) ->
                   r <> pageParams s None)
  /\ exists m,
       (m < n)%nat
       /\ progress (trace_of run) = map (fun i => percent i n) (seq 1 m)
       /\ approveAllComplete s'
          = last (map (fun i => percent i n) (seq 1 m)) (approveAllComplete s).
Proof.
  cbv zeta. unfold result_of, next_state, trace_of.
  destruct act as [a|].
  - destruct (approveAll_batch_runs backend s a approveAll_prologue)
      as (r & t & m & E & Hg & Hp & Hb).
    apply approveAll_from_batch in E.
    assert (Hm : forall e, r = Threw e ->
                 (m < List.length (captureImagesSelected s))%nat).
    { intros e He. destruct Hb; try assumption. discriminate He. }
    destruct r as [u|e].
    + destruct E as (tl & res & E & Htl). rewrite E. cbn [fst snd].
      destruct Htl; discriminate.
    + rewrite E. cbn [fst snd]. intros _.
      pose proof (approve_events_progress _ Hg) as Hpe.
      rewrite !run_state_app, (run_state_progress_only t _ Hpe).
      split; [now split|]. split; [now repeat split|].
      split.
      { intros r ok Hin Er. subst r.
        rewrite !calls_app, !in_app_iff in Hin. simpl in Hin.
        destruct Hin as [[]|[Hin|[]]].
        rewrite Forall_forall in Hg.
        assert (Hc : In (Call (pageParams s None) ok) t).
        { unfold calls in Hin. apply in_flat_map in Hin.
          destruct Hin as (ev & Hev & Hin). destruct ev; simpl in Hin;
            try contradiction.
          destruct Hin as [Hin|[]]. now injection Hin as -> ->. }
        specialize (Hg _ Hc). discriminate Hg. }
      exists m. split; [now apply (Hm e)|].
      assert (Ep : progress
                     (approveAll_prologue ++ t
                      ++ [SetIsLoading false; SetIsApproveAllProcessing false])
                   = progress t).
      { rewrite !progress_app. simpl. now rewrite app_nil_r. }
      split; [now rewrite Ep|].
      cbn [run_state fold_left apply_event approveAllComplete
           approveAll_prologue]. now rewrite Hp.
  - destruct (captureImagesSelected s) as [|x sel] eqn:Es.
    + rewrite approveAll_unfold. unfold approveAll_batch. rewrite Es.
      cbn [List.length for_range ret]. rewrite loadCaptureImages_run.
      destruct (isLoading s); [discriminate|].
      destruct (resolves backend _ _); discriminate.
    + destruct (approveAll_batch_no_action backend s approveAll_prologue)
        as (e & E & _); [rewrite Es; discriminate|].
      rewrite approveAll_unfold, E. cbn [fst snd]. intros _.
      split; [now split|]. split; [now repeat split; rewrite ?Es|].
      split.
      { intros r ok Hin. simpl in Hin. contradiction. }
      exists O. split; [simpl; lia|]. now split.
Qed.

(** The second approval of three is rejected: the progress stays at the
    value written for the first item. *)
Lemma approveAll_failure_frame_witness :
  let run := approveAll (server_failing_at 1) selected_2_4_5
               (Some approve_action) in
  approveAllComplete (next_state selected_2_4_5 run) = percent 1 3
  /\ captureImagesSelected (next_state selected_2_4_5 run) = [2; 4; 5].
Proof.
  destruct (approveAll_failure_frame (server_failing_at 1) selected_2_4_5
              (Some approve_action) eq_refl)
    as (_ & (Hs & _) & _ & _).
  split; [reflexivity|exact Hs].
Defined.

(** X13.  [approve] with an action writes no cell and sends the verdict
    request first, then the tag request when the action has tags and the
    verdict resolved: its requests are a prefix, not empty, of
    [item_requests].  It returns [true] exactly when every request it
    sent resolved, and then it sent them all; otherwise it throws the
    rejection of the last request it sent. *)
Theorem approve_calls (backend : Backend) (a : ApproveAction) (x : Z)
  (h : list event) :
  let out := approve backend (Some a) x h in
  exists t,
    snd out = h ++ t
    /\ Forall (fun e => exists r ok, e = Call r ok) t
    /\ (exists k, (1 <= k)%nat
                  /\ requests t = firstn k (item_requests a x))
    /\ (fst out = Returned true <-> all_resolved t)
    /\ (fst out = Returned true -> requests t = item_requests a x)
    /\ (forall e, fst out = Threw e ->
          exists t0 r,
            t = t0 ++ [Call r false] /\ e = Rejected r /\ all_resolved t0).
Proof.
  cbv zeta. pose proof (approve_runs backend a x h) as R.
  destruct (approve backend (Some a) x h) as [ra ha].
  unfold item_requests.
  inversion R as [t Ht E|E|l Ht E]; clear R; cbn [fst snd].
  - exists (Call (verdict_request a x) true :: t).
    split; [reflexivity|].
    destruct Ht as [[Et ->]|(l & Et & ->)]; rewrite Et.
    + split; [repeat constructor; now eexists _, _|].
      split; [exists 1%nat; split; [lia|reflexivity]|].
      split; [split; [intros _; repeat constructor|reflexivity]|].
      split; [reflexivity|discriminate].
    + split; [repeat constructor; now eexists _, _|].
      split; [exists 2%nat; split; [lia|reflexivity]|].
      split; [split; [intros _; repeat constructor|reflexivity]|].
      split; [reflexivity|discriminate].
  - exists [Call (verdict_request a x) false].
    split; [reflexivity|].
    split; [repeat constructor; now eexists _, _|].
    split; [exists 1%nat; split; [lia|reflexivity]|].
    split.
    { split; [discriminate|]. intros Hall. inversion Hall as [|c l Hc _].
      discriminate Hc. }
    split; [discriminate|].
    intros e He. injection He as <-.
    exists [], (verdict_request a x). repeat split. constructor.
  - exists [Call (verdict_request a x) true;
            Call (api.createCaptureTags x l) false].
    split; [reflexivity|]. rewrite Ht.
    split; [repeat constructor; now eexists _, _|].
    split; [exists 2%nat; split; [lia|reflexivity]|].
    split.
    { split; [discriminate|]. intros Hall.
      inversion Hall as [|c l0 _ Hrest]. inversion Hrest as [|c' l1 Hc _].
      discriminate Hc. }
    split; [discriminate|].
    intros e He. injection He as <-.
    exists [Call (verdict_request a x) true], (api.createCaptureTags x l).
    repeat split. repeat constructor.
Qed.

(** A rejection with tags on a server that rejects the second request. *)
Lemma approve_calls_witness :
  exists t,
    snd (approve (server_failing_at 1) (Some reject_action_with_tags) 2 [])
    = [] ++ t
    /\ exists k, (1 <= k)%nat
                 /\ requests t
                    = firstn k (item_requests reject_action_with_tags 2).
Proof.
  destruct (approve_calls (server_failing_at 1) reject_action_with_tags 2 [])
    as (t & E & _ & Hk & _).
  exists t. split; [exact E|exact Hk].
Defined.

(** ** Batch undo *)

Lemma last_repeat_or {A : Type} (x d : A) (n : nat) :
  last (repeat x n) d = match n with O => d | S _ => x end.
Proof. destruct n; [reflexivity|apply last_repeat]. Qed.

Lemma requests_all (t : list event) :
  key_requests (fun _ => true) t = requests t.
Proof.
  unfold key_requests. apply forallb_filter_id, forallb_forall. reflexivity.
Qed.

Lemma expected_undo_all (s : State) :
  map (expected_undo s) (seq 0 (List.length (captureImagesUndo s)))
  = map (fun c => api.undoCaptureImage (id c)) (captureImagesUndo s).
Proof.
  unfold expected_undo.
  rewrite (map_nth_seq (fun c => api.undoCaptureImage (id c)) (mkCapture 0 ""))
    by reflexivity.
  now rewrite firstn_all.
Qed.

(** The run of a batch undo that returns [true]. *)
Lemma undoAll_returns_true (backend : Backend) (s : State) :
  let run := undoAll backend s in
  let s' := next_state s run in
  result_of run = Returned true ->
  requests (trace_of run)
  = map (fun c => api.undoCaptureImage (id c)) (captureImagesUndo s)
  /\ all_resolved (trace_of run)
  /\ captureImagesUndo s' = captureImagesUndo s
  /\ captureImages s' = restored_page s
  /\ (captureImagesSelected s' = [] /\ captureImageAnchor s' = None)
  /\ (isLoading s' = false /\ isApproveAllProcessing s' = false)
  /\ approveAllComplete s' = 0%float
  /\ invalidateCaptureCount s' = true.
Proof.
  cbv zeta. unfold result_of, next_state, trace_of.
  destruct (undoAll_batch_runs backend s undoAll_prologue)
    as (res & t & m & E & Hp & Hb).
  destruct (undoAll_loop_writes backend s (List.length (captureImagesUndo s))
              O undoAll_prologue) as (res' & t' & E' & Hpw & Huw);
    [simpl; lia|].
  unfold undoAll_batch in E. rewrite E in E'.
  injection E' as <- Et. subst t'.
  fold (undoAll_batch backend s undoAll_prologue) in E.
  apply undoAll_from_batch in E. rewrite E.
  destruct Hb as [t Hall Ek|t0 r0 m _ _ _|e t m _ _ [] _ _]; cbn [fst snd];
    [|discriminate].
  intros _.
  rewrite Hp, length_map, length_seq in Hpw, Huw.
  split.
  { rewrite !requests_app. cbn [undoAll_prologue undoAll_epilogue requests
      calls flat_map map app]. rewrite app_nil_r.
    rewrite <- requests_all, Ek. apply expected_undo_all. }
  split.
  { apply (proj2 (all_resolved_app undoAll_prologue _)).
    split; [constructor|].
    apply (proj2 (all_resolved_app t _)). split; [assumption|constructor]. }
  split.
  { rewrite run_state_undo, !undo_writes_app, Huw.
    cbn [undo_writes undoAll_prologue undoAll_epilogue flat_map app].
    rewrite app_nil_r, last_repeat_or.
    now destruct (List.length (captureImagesUndo s)). }
  split.
  { rewrite run_state_page, !page_writes_app, Hpw.
    cbn [page_writes undoAll_prologue undoAll_epilogue flat_map app].
    rewrite app_nil_r, last_repeat_or. unfold restored_page.
    now destruct (captureImagesUndo s). }
  rewrite !run_state_app. now repeat split.
Qed.

(** X14.  A batch undo that returns [true] has sent one undo request per
    entry of the undo list, in the order of the list, and all resolved.
    In the next state the flags are false, the progress is 0, the count
    is invalid and the selection is cleared; the undo list is the one of
    the snapshot, no entry removed, and the page is the page of the
    snapshot with the first entry of the undo list inserted (the page
    itself when the undo list is empty). *)
Theorem undoAll_success (backend : Backend) (s : State) :
  let run := undoAll backend s in
  let s' := next_state s run in
  result_of run = Returned true ->
  requests (trace_of run)
  = map (fun c => api.undoCaptureImage (id c)) (captureImagesUndo s)
  /\ all_resolved (trace_of run)
  /\ captureImagesUndo s' = captureImagesUndo s
  /\ captureImages s' = restored_page s
  /\ (captureImagesSelected s' = [] /\ captureImageAnchor s' = None)
  /\ (isLoading s' = false /\ isApproveAllProcessing s' = false)
  /\ approveAllComplete s' = 0%float
  /\ invalidateCaptureCount s' = true.
Proof. exact (undoAll_returns_true backend s). Qed.

Lemma undoAll_success_witness :
  requests (trace_of (undoAll server_ok undo_2_4))
  = [api.undoCaptureImage 2; api.undoCaptureImage 4]
  /\ captureImagesUndo (next_state undo_2_4 (undoAll server_ok undo_2_4))
     = map capture [2; 4].
Proof.
  destruct (undoAll_success server_ok undo_2_4 eq_refl)
    as (Hr & _ & Hu & _).
  split; [exact Hr|exact Hu].
Defined.

(** *** Sorting by id *)

Lemma insert_by_id_perm (x : CaptureImage) (l : list CaptureImage) :
  Permutation (insert_by_id x l) (x :: l).
Proof.
  induction l as [|y l IH]; simpl; [reflexivity|].
  destruct (id x <=? id y); [reflexivity|].
  rewrite IH. apply perm_swap.
Qed.

Lemma sort_by_id_perm (l : list CaptureImage) :
  Permutation (sort_by_id l) l.
Proof.
  induction l as [|x l IH]; simpl; [reflexivity|].
  rewrite insert_by_id_perm. now constructor.
Qed.

Lemma insert_by_id_sorted (x : CaptureImage) (l : list CaptureImage) :
  StronglySorted id_le l -> StronglySorted id_le (insert_by_id x l).
Proof.
  induction 1 as [|y l Hs IH Hy]; simpl; [repeat constructor|].
  destruct (Z.leb_spec (id x) (id y)) as [Hle|Hlt].
  - constructor; [now constructor|].
    constructor; [exact Hle|].
    eapply Forall_impl; [|exact Hy]. unfold id_le. intros z Hz. lia.
  - constructor; [exact IH|].
    apply Forall_forall. intros z Hz.
    apply (Permutation_in _ (insert_by_id_perm x l)) in Hz.
    destruct Hz as [<-|Hz]; [unfold id_le; lia|].
    rewrite Forall_forall in Hy. now apply Hy.
Qed.

Lemma sort_by_id_sorted (l : list CaptureImage) :
  StronglySorted id_le (sort_by_id l).
Proof.
  induction l as [|x l IH]; simpl; [constructor|].
  now apply insert_by_id_sorted.
Qed.

(** The entry [reduce] picks for an id: one of the list, with that id
    when the list has one. *)
Lemma fold_picks (x : Z) (rest : list CaptureImage) :
  forall first,
    let c := fold_left
               (fun a c => if strict_eq (id c) (Some x) then c else a)
               rest first in
    In c (first :: rest)
    /\ (In x (map id (first :: rest)) -> id c = x).
Proof.
  induction rest as [|y rest IH]; intros first; simpl.
  - split; [now left|]. intros [E|[]]. exact E.
  - specialize (IH (if id y =? x then y else first)). simpl in IH.
    destruct IH as [Hin Hid].
    destruct (Z.eqb_spec (id y) x) as [E|E].
    + split; [tauto|]. intros _. apply Hid. now left.
    + split; [tauto|]. intros [H|[H|H]]; [|contradiction|]; apply Hid; tauto.
Qed.

(** X15.  Called with both of its parameters and the id of an entry of
    the undo list, [undoedCaptureImage] does what its comment says: it
    writes a page that is sorted by ascending id and made of the entries
    of the page plus an undo entry with that id, and an undo list that is
    the old one without the entries of that id, in the same order. *)
Theorem undoedCaptureImage_moves (s : State) (state : option Z) (x : Z) :
  In x (map id (captureImagesUndo s)) ->
  exists c p u,
    undoedCaptureImage s state (Some x) []
    = (Returned tt, [SetCaptureImages p; SetCaptureImagesUndo u])
    /\ In c (captureImagesUndo s) /\ id c = x
    /\ Permutation p (c :: captureImages s)
    /\ StronglySorted id_le p
    /\ u = List.filter (fun d => negb (id d =? x)) (captureImagesUndo s)
    /\ ~ In x (map id u)
    /\ (forall d, In d (captureImagesUndo s) -> id d <> x -> In d u).
Proof.
  intros Hin. unfold undoedCaptureImage.
  destruct (captureImagesUndo s) as [|first rest] eqn:Eu; [contradiction|].
  destruct (fold_picks x rest first) as [Hc Hid].
  set (c := fold_left _ rest first) in *.
  exists c, (sort_by_id (captureImages s ++ [c])),
    (List.filter (fun d => negb (id d =? x)) (first :: rest)).
  split; [reflexivity|]. split; [exact Hc|]. split; [now apply Hid|].
  split.
  { rewrite sort_by_id_perm. rewrite Permutation_app_comm. reflexivity. }
  split; [apply sort_by_id_sorted|]. split; [reflexivity|].
  split.
  { intros H. apply in_map_iff in H. destruct H as (d & Ed & Hd).
    apply filter_In in Hd. destruct Hd as [_ Hd].
    rewrite Ed, Z.eqb_refl in Hd. discriminate Hd. }
  intros d Hd Hne. apply filter_In. split; [exact Hd|].
  now destruct (Z.eqb_spec (id d) x).
Qed.

(** Moving the capture 4 of the undo list 2, 4 to the page 1, 3. *)
Lemma undoedCaptureImage_moves_witness :
  exists c p u,
    undoedCaptureImage undo_2_4 None (Some 4) []
    = (Returned tt, [SetCaptureImages p; SetCaptureImagesUndo u])
    /\ In c (captureImagesUndo undo_2_4) /\ id c = 4.
Proof.
  assert (H : In 4 (map id (captureImagesUndo undo_2_4))) by (simpl; tauto).
  destruct (undoedCaptureImage_moves undo_2_4 None 4 H)
    as (c & p & u & E & Hc & Hid & _).
  exists c, p, u. split; [exact E|]. split; [exact Hc|exact Hid].
Defined.

(** X16.  The page a batch undo installs is sorted by ascending id,
    whatever the order of the page before, and holds the entries of that
    page and the first undo entry.  As the undo list is kept, a second
    batch undo from the next state sends the same requests again and
    inserts the same entry once more: the page has two entries more than
    at the start. *)
Theorem undoAll_twice (backend backend' : Backend) (s : State)
  (first : CaptureImage) (rest : list CaptureImage) :
  captureImagesUndo s = first :: rest ->
  let s1 := next_state s (undoAll backend s) in
  let s2 := next_state s1 (undoAll backend' s1) in
  result_of (undoAll backend s) = Returned true ->
  (StronglySorted id_le (captureImages s1)
   /\ Permutation (captureImages s1) (first :: captureImages s))
  /\ (result_of (undoAll backend' s1) = Returned true ->
      requests (trace_of (undoAll backend' s1))
      = requests (trace_of (undoAll backend s))
      /\ Permutation (captureImages s2)
           (first :: first :: captureImages s)
      /\ List.length (captureImages s2)
         = S (S (List.length (captureImages s)))).
Proof.
  intros Eu. cbv zeta. intros H1.
  destruct (undoAll_returns_true backend s H1) as (Hr1 & _ & Hu1 & Hp1 & _).
  assert (Ep : restored_page s = sort_by_id (captureImages s ++ [first])).
  { unfold restored_page. now rewrite Eu. }
  assert (P1 : Permutation (captureImages (next_state s (undoAll backend s)))
                 (first :: captureImages s)).
  { rewrite Hp1, Ep, sort_by_id_perm. apply Permutation_app_comm. }
  split.
  { split; [rewrite Hp1, Ep; apply sort_by_id_sorted|exact P1]. }
  intros H2.
  destruct (undoAll_returns_true backend' _ H2) as (Hr2 & _ & _ & Hp2 & _).
  assert (P2 : Permutation
                 (captureImages
                    (next_state (next_state s (undoAll backend s))
                       (undoAll backend'
                          (next_state s (undoAll backend s)))))
                 (first :: first :: captureImages s)).
  { rewrite Hp2. unfold restored_page. rewrite Hu1, Eu.
    rewrite sort_by_id_perm, Permutation_app_comm. simpl.
    now constructor. }
  split; [now rewrite Hr2, Hr1, Hu1|].
  split; [exact P2|].
  now rewrite (Permutation_length P2).
Qed.

Lemma undoAll_twice_witness :
  let s1 := next_state undo_2_4 (undoAll server_ok undo_2_4) in
  let s2 := next_state s1 (undoAll server_ok s1) in
  List.length (captureImages s2) = 4%nat.
Proof.
  destruct (undoAll_twice server_ok server_ok undo_2_4 (capture 2)
              [capture 4] eq_refl eq_refl) as (_ & H2).
  destruct (H2 eq_refl) as (_ & _ & Hl). exact Hl.
Defined.

Lemma undo_loop_frame (t : list event) :
  Forall undo_loop_event t ->
  forall st,
    captureImagesSelected (run_state st t) = captureImagesSelected st
    /\ captureImageAnchor (run_state st t) = captureImageAnchor st
    /\ isLoading (run_state st t) = isLoading st
    /\ isApproveAllProcessing (run_state st t) = isApproveAllProcessing st.
Proof.
  induction 1 as [|e t He _ IH]; intros st; [now repeat split|].
  change (run_state st (e :: t)) with (run_state (apply_event st e) t).
  destruct (IH (apply_event st e)) as (H1 & H2 & H3 & H4).
  rewrite H1, H2, H3, H4.
  destruct e; simpl in He; try contradiction; now repeat split.
Qed.

Lemma undoAll_batch_events (backend : Backend) (s : State) (h : list event) :
  exists r t,
    undoAll_batch backend s h = (r, h ++ t) /\ Forall undo_loop_event t.
Proof.
  unfold undoAll_batch.
  destruct (for_range_runs (undoAll_item backend s
                              (List.length (captureImagesUndo s)))
              (List.length (captureImagesUndo s)) undo_loop_event
              (fun _ => true) (expected_undo s) (fun _ => False))
    with (n := List.length (captureImagesUndo s)) (i := O) (h := h)
    as (r & t & m & E & Hg & _); [|simpl; lia|now exists r, t].
  intros i h' Hi. rewrite (undoAll_item_run backend s i h' Hi).
  destruct (resolves backend (requests h') (expected_undo s i)).
  - apply item_done; try reflexivity; repeat constructor.
  - apply (item_rejected _ _ _ _ _ _ []); try reflexivity; repeat constructor.
Qed.

(** X17.  When [undoAll] returns [false], after [m] completed entries
    with [m] less than the length of the undo list, it has sent [m + 1]
    requests, for the first entries of the list; the selection, the
    anchor and the undo list are as they were; the progress keeps the
    value written for the last completed entry; and the page is the page
    of the snapshot, with the first undo entry inserted as soon as one
    entry completed. *)
Theorem undoAll_failure_frame (backend : Backend) (s : State) :
  let run := undoAll backend s in
  let s' := next_state s run in
  let n := List.length (captureImagesUndo s) in
  result_of run = Returned false ->
  (captureImagesSelected s' = captureImagesSelected s
   /\ captureImageAnchor s' = captureImageAnchor s
   /\ captureImagesUndo s' = captureImagesUndo s)
  /\ exists m,
       (m < n)%nat
       /\ requests (trace_of run) = map (expected_undo s) (seq 0 (S m))
       /\ progress (trace_of run) = map (fun i => percent i n) (seq 1 m)
       /\ approveAllComplete s'
          = last (map (fun i => percent i n) (seq 1 m)) (approveAllComplete s)
       /\ captureImages s'
          = match m with
            | O => captureImages s
            | S _ => restored_page s
            end.
Proof.
  cbv zeta. unfold result_of, next_state, trace_of.
  destruct (undoAll_batch_runs backend s undoAll_prologue)
    as (res & t & m & E & Hp & Hb).
  destruct (undoAll_loop_writes backend s (List.length (captureImagesUndo s))
              O undoAll_prologue) as (res' & t' & E' & Hpw & Huw);
    [simpl; lia|].
  destruct (undoAll_batch_events backend s undoAll_prologue)
    as (res'' & t'' & E'' & Hg).
  rewrite E in E''. injection E'' as <- Et''. subst t''.
  unfold undoAll_batch in E. rewrite E in E'.
  injection E' as <- Et. subst t'.
  fold (undoAll_batch backend s undoAll_prologue) in E.
  apply undoAll_from_batch in E. rewrite E.
  destruct Hb as [t _ _|t0 r0 m Hm _ Ek|e t m _ _ [] _ _]; cbn [fst snd];
    [discriminate|].
  intros _. clear E.
  set (tm := t0 ++ [Call r0 false]) in *.
  rewrite Hp, length_map, length_seq in Hpw, Huw.
  assert (Ep : progress (undoAll_prologue ++ tm ++ undoAll_catch)
               = map (fun i => percent i (List.length (captureImagesUndo s)))
                     (seq 1 m)).
  { rewrite !progress_app, Hp. simpl. now rewrite app_nil_r. }
  split.
  { destruct (undo_loop_frame _ Hg (run_state s undoAll_prologue))
      as (Hs & Ha & _).
    split; [rewrite !run_state_app; exact Hs|].
    split; [rewrite !run_state_app; exact Ha|].
    rewrite run_state_undo, !undo_writes_app, Huw.
    cbn [undo_writes undoAll_prologue undoAll_catch flat_map app].
    rewrite app_nil_r, last_repeat_or. now destruct m. }
  exists m. split; [exact Hm|]. split.
  { rewrite !requests_app. cbn [undoAll_prologue undoAll_catch requests
      calls flat_map map app]. rewrite app_nil_r.
    now rewrite <- requests_all. }
  split; [exact Ep|]. split.
  { now rewrite run_state_progress, Ep. }
  rewrite run_state_page, !page_writes_app, Hpw.
  cbn [page_writes undoAll_prologue undoAll_catch flat_map app].
  now rewrite app_nil_r, last_repeat_or.
Qed.

(** The undo list 2, 4 with the second request rejected: the first entry
    is on the page, the selection is kept. *)
Lemma undoAll_failure_frame_witness :
  let run := undoAll (server_failing_at 1) undo_2_4 in
  captureImagesUndo (next_state undo_2_4 run) = map capture [2; 4]
  /\ requests (trace_of run)
     = [api.undoCaptureImage 2; api.undoCaptureImage 4].
Proof.
  destruct (undoAll_failure_frame (server_failing_at 1) undo_2_4 eq_refl)
    as ((_ & _ & Hu) & _).
  split; [exact Hu|reflexivity].
Defined.

(** ** The undo snapshot and ranges off the page *)

Lemma NoDup_map_filter (f : CaptureImage -> bool) (l : list CaptureImage) :
  NoDup (map id l) -> NoDup (map id (List.filter f l)).
Proof.
  induction l as [|c l IH]; simpl; [trivial|].
  intros H. inversion H as [|x xs Hx Hxs]; subst.
  destruct (f c); simpl; [|now apply IH].
  constructor; [|now apply IH].
  intros Hin. apply Hx. apply in_map_iff in Hin.
  destruct Hin as (d & Ed & Hd). apply filter_In in Hd.
  apply in_map_iff. exists d. tauto.
Qed.

(** X18.  The undo snapshot of [approveAll] depends on the selection only
    through its members: two selections with the same ids give the same
    snapshot, in the order of the page.  When the page has no duplicate
    id and the selection has none and lies on the page, the ids of the
    snapshot are exactly the selected ids, one capture each. *)
Theorem undo_snapshot_members (s1 s2 : State) :
  (captureImages s1 = captureImages s2 ->
   (forall x, In x (captureImagesSelected s1)
              <-> In x (captureImagesSelected s2)) ->
   undo_snapshot s1 = undo_snapshot s2)
  /\ (NoDup (map id (captureImages s1)) ->
      NoDup (captureImagesSelected s1) ->
      selection_on_page s1 ->
      Permutation (map id (undo_snapshot s1)) (captureImagesSelected s1)
      /\ List.length (undo_snapshot s1)
         = List.length (captureImagesSelected s1)).
Proof.
  split.
  - intros Ep Hs. unfold undo_snapshot. rewrite Ep.
    apply filter_ext. intros c.
    apply eq_true_iff_eq. rewrite !existsb_exists.
    split; intros (x & Hx & E); exists x; (split; [now apply Hs|exact E]).
  - intros Hp Hsel Hon.
    assert (P : Permutation (map id (undo_snapshot s1))
                  (captureImagesSelected s1)).
    { apply NoDup_Permutation; [now apply NoDup_map_filter|exact Hsel|].
      intros x. rewrite in_map_iff. split.
      - intros (c & <- & Hc). now apply undo_snapshot_spec in Hc.
      - intros Hx. pose proof (Hon x Hx) as Hpg. apply in_map_iff in Hpg.
        destruct Hpg as (c & <- & Hc). exists c. split; [reflexivity|].
        apply undo_snapshot_spec. now split. }
    split; [exact P|].
    now rewrite <- (Permutation_length P), length_map.
Qed.

(** The selections 2, 4, 5 and 5, 2, 4, 2 of the page 1 to 5. *)
Lemma undo_snapshot_members_witness :
  undo_snapshot selected_2_4_5
  = undo_snapshot
      (run_state page_1_to_5 [SetCaptureImagesSelected [5; 2; 4; 2]]).
Proof.
  apply (undo_snapshot_members selected_2_4_5
           (run_state page_1_to_5 [SetCaptureImagesSelected [5; 2; 4; 2]]));
    [reflexivity|].
  intros x. simpl. tauto.
Defined.

Lemma index_of_id_bounds (s : State) (x : Z) :
  -1 <= index_of_id s x < Z.of_nat (List.length (captureImages s))
  /\ (~ In x (map id (captureImages s)) -> index_of_id s x = -1).
Proof.
  unfold index_of_id.
  destruct (reduce_indexed_spec x (captureImages s) 0 (-1))
    as [[E _]|[Hr (c & Hn & Hc)]].
  - rewrite E. split; [lia|reflexivity].
  - split; [lia|]. intros Hnot. exfalso. apply Hnot.
    apply nth_error_In in Hn. apply in_map_iff. now exists c.
Qed.

Lemma skipn_to_last {A : Type} (d : A) (l : list A) :
  l <> [] -> skipn (List.length l - 1) l = [last l d].
Proof.
  induction l as [|a l IH]; [contradiction|]. intros _.
  destruct l as [|b l]; [reflexivity|].
  change (skipn (List.length (a :: b :: l) - 1) (a :: b :: l))
    with (skipn (List.length l) (b :: l)).
  change (last (a :: b :: l) d) with (last (b :: l) d).
  rewrite <- IH by discriminate. f_equal. simpl. lia.
Qed.

(** X19.  A shift click whose anchor, when there is one, or whose clicked
    id is not on the page selects at most one id, and only ever the id
    of the last capture of the page: the index -1 of the missing id
    makes the slice start at the last entry. *)
Theorem shift_click_off_page (s : State) (cid : Z) (cmd ctrl : bool) :
  (~ In cid (map id (captureImages s))
   \/ exists a, captureImageAnchor s = Some a
                /\ ~ In a (map id (captureImages s))) ->
  let s' := next_state s (clickCapture s (mkClick cid true cmd ctrl)) in
  (List.length (captureImagesSelected s') <= 1)%nat
  /\ forall x d, In x (captureImagesSelected s') ->
                 x = id (last (captureImages s) d).
Proof.
  intros Hoff. cbv zeta. rewrite shift_click_state.
  cbn [apply_event captureImagesSelected]. unfold shift_selection.
  set (ia := match captureImageAnchor s with
             | Some a => index_of_id s a
             | None => 0
             end).
  set (ic := index_of_id s cid).
  assert (Hia : -1 <= ia).
  { unfold ia. destruct (captureImageAnchor s) as [a|]; [|lia].
    apply index_of_id_bounds. }
  assert (Hic : -1 <= ic) by apply index_of_id_bounds.
  assert (Emin : Z.min ia ic = -1).
  { destruct Hoff as [Hc|(a & Ea & Ha)].
    - assert (ic = -1) by now apply index_of_id_bounds. lia.
    - assert (ia = -1).
      { unfold ia. rewrite Ea. now apply index_of_id_bounds. }
      lia. }
  rewrite Emin. unfold slice. cbn [Z.ltb Z.compare].
  destruct (captureImages s) as [|c0 l0] eqn:El.
  { rewrite skipn_nil, firstn_nil. simpl. split; [lia|contradiction]. }
  rewrite <- El.
  assert (Hne : captureImages s <> []) by (rewrite El; discriminate).
  assert (Ek : Z.to_nat (Z.max (Z.of_nat (List.length (captureImages s)) + -1) 0)
               = (List.length (captureImages s) - 1)%nat) by lia.
  rewrite Ek.
  split.
  - rewrite length_map, (skipn_to_last c0 _ Hne).
    set (n := Z.to_nat _). destruct n as [|n]; simpl; [lia|].
    rewrite firstn_nil. simpl. lia.
  - intros x d. rewrite (skipn_to_last d _ Hne).
    set (n := Z.to_nat _). destruct n as [|n]; simpl; [contradiction|].
    rewrite firstn_nil. simpl. intros [<-|[]]. reflexivity.
Qed.

(** The anchor 9 is not on the page 1 to 5: a shift click on 5 selects
    the last capture only. *)
Lemma shift_click_off_page_witness :
  (List.length
     (captureImagesSelected
        (next_state stale_anchor
           (clickCapture stale_anchor (mkClick 5 true false false))))
   <= 1)%nat.
Proof.
  apply (shift_click_off_page stale_anchor 5 false false).
  right. exists 9. split; [reflexivity|].
  simpl. intros H.
  repeat (destruct H as [H|H]; [discriminate H|]). exact H.
Defined.

(** * The batch approve, revisited *)





Lemma undo_snapshot_nothing_selected (s : State) :
  captureImagesSelected s = [] -> undo_snapshot s = [].
Proof.
  intros E. unfold undo_snapshot. rewrite E. simpl.
  induction (captureImages s) as [|c l IH]; [reflexivity|exact IH].
Qed.

(** C6, as the code has it.  [approve] without an action throws its
    precondition error before any call.  [approveAll] does not test the
    action.  With a selection that is not empty its first iteration
    throws before any call (the precondition error of [approve] when the
    first selected id has a capture on the page, a [TypeError] of the
    lookup when it has none); the [catch] block resets both flags and
    [approveAll] returns [false], having sent no request of any kind.
    With an empty selection the loop body does not run: [approveAll]
    sends no approve, reject or tag request (the page request of its
    reload is the only one it can send) and installs the empty undo
    snapshot; it returns [true], or throws the rejection of the page
    request when [isLoading] was false and that request is rejected. *)
Theorem approveAll_without_action (backend : Backend) (s : State) :
  let run := approveAll backend s None in
  let page_request := pageParams s None in
  (forall x h,
     approve backend None x h = (Threw (Error "no approve action object!"), h))
  /\ (forall x rest,
        captureImagesSelected s = x :: rest ->
        approveAll_batch backend s None approveAll_prologue
        = (Threw (match lookup_capture s (Some x) with
                  | Some _ => Error "no approve action object!"
                  | None => TypeError
                  end),
           approveAll_prologue)
        /\ result_of run = Returned false
        /\ trace_of run
           = [SetIsLoading true; SetIsApproveAllProcessing true;
              SetIsLoading false; SetIsApproveAllProcessing false]
        /\ calls (trace_of run) = [])
  /\ (captureImagesSelected s = [] ->
      (forall r ok, In (r, ok) (calls (trace_of run)) -> r = page_request)
      /\ captureImagesUndo (next_state s run) = []
      /\ (isLoading s = true -> result_of run = Returned true)
      /\ (isLoading s = false ->
          resolves backend [] page_request = true ->
          result_of run = Returned true)
      /\ (isLoading s = false ->
          resolves backend [] page_request = false ->
          result_of run = Threw (Rejected page_request))).
Proof.
  cbv zeta. split; [reflexivity|]. split.
  - intros x rest Es.
    assert (Eb : approveAll_batch backend s None approveAll_prologue
                 = (Threw (match lookup_capture s (Some x) with
                           | Some _ => Error "no approve action object!"
                           | None => TypeError
                           end),
                    approveAll_prologue)).
    { unfold approveAll_batch. rewrite Es. simpl. unfold bind, approveAll_item.
      rewrite Es. simpl. now destruct (lookup_capture s (Some x)). }
    split; [exact Eb|].
    unfold result_of, trace_of. rewrite approveAll_unfold, Eb.
    now repeat split.
  - intros Es. unfold result_of, next_state, trace_of.
    rewrite approveAll_unfold. unfold approveAll_batch. rewrite Es.
    cbn [List.length for_range ret]. rewrite loadCaptureImages_run.
    rewrite (undo_snapshot_nothing_selected s Es).
    cbn [approveAll_prologue app requests calls flat_map map].
    destruct (isLoading s).
    + cbn [fst snd]. split.
      { intros r ok Hin. simpl in Hin. contradiction. }
      split; [reflexivity|]. split; [reflexivity|].
      split; intros H; discriminate H.
    + destruct (resolves backend [] (pageParams s None)) eqn:Hr;
        cbn [fst snd].
      * split.
        { intros r ok Hin. simpl in Hin. destruct Hin as [Hin|[]].
          now injection Hin as <- _. }
        split; [reflexivity|]. split; [discriminate|].
        split; [reflexivity|]. intros _ H. discriminate H.
      * split.
        { intros r ok Hin. simpl in Hin. destruct Hin as [Hin|[]].
          now injection Hin as <- _. }
        split; [reflexivity|]. split; [discriminate|].
        split; [intros _ H; discriminate H|reflexivity].
Qed.

(** Without an action: a selection whose first id is on the page, one
    whose first id is not, and an empty selection. *)
Lemma approveAll_without_action_witness :
  (approveAll_batch server_ok selected_2_4_5 None approveAll_prologue
   = (Threw (Error "no approve action object!"), approveAll_prologue)
   /\ result_of (approveAll server_ok selected_2_4_5 None) = Returned false)
  /\ (approveAll_batch server_ok selected_absent None approveAll_prologue
      = (Threw TypeError, approveAll_prologue)
      /\ result_of (approveAll server_ok selected_absent None)
         = Returned false)
  /\ result_of (approveAll server_ok page_1_to_5 None) = Returned true
  /\ result_of (approveAll server_down page_1_to_5 None)
     = Threw (Rejected (pageParams page_1_to_5 None)).
Proof.
  destruct (approveAll_without_action server_ok selected_2_4_5)
    as (_ & H1 & _).
  destruct (approveAll_without_action server_ok selected_absent)
    as (_ & H2 & _).
  destruct (approveAll_without_action server_ok page_1_to_5)
    as (_ & _ & H3).
  destruct (approveAll_without_action server_down page_1_to_5)
    as (_ & _ & H4).
  split; [|split; [|split]].
  - destruct (H1 2 [4; 5] eq_refl) as (Eb & Hr & _). now split.
  - destruct (H2 7 [] eq_refl) as (Eb & Hr & _). now split.
  - destruct (H3 eq_refl) as (_ & _ & _ & Hok & _). now apply Hok.
  - destruct (H4 eq_refl) as (_ & _ & _ & _ & Hko). now apply Hko.
Defined.

(** ** The progress in doubles *)

(** The value written after the first of three items is the double
    [100 * (1 / 3)], which is 0x1.0aaaaaaaaaaaap+5 (33.33333333333333),
    one unit in the last place below the double [100 * 1 / 3], which is
    0x1.0aaaaaaaaaaabp+5 (33.333333333333336); the value written after
    the last item is 100. *)
Lemma percent_of_thirds :
  percent 1 3 = 0x1.0aaaaaaaaaaaap+5%float
  /\ (100 * number 1 / number 3)%float = 0x1.0aaaaaaaaaaabp+5%float
  /\ PrimFloat.ltb (percent 1 3) (100 * number 1 / number 3) = true
  /\ percent 1 3 <> (100 * number 1 / number 3)%float
  /\ percent 3 3 = 100%float.
Proof.
  split; [reflexivity|]. split; [reflexivity|]. split; [reflexivity|].
  split; [|reflexivity].
  intros E.
  assert (H : PrimFloat.ltb (percent 1 3) (100 * number 1 / number 3) = true)
    by reflexivity.
  rewrite E in H. vm_compute in H. discriminate H.
Qed.
